(** * Label Studio security helpers: [label_studio/core/utils/security.py]

    A shallow embedding of the module's six functions and of the Python
    built-ins they call ([len], slicing, [str * int], [str.replace],
    [str.lower], [in] on strings, [re.sub] for the one pattern the module
    compiles), followed by the properties of the functions.

    Strings.  A Python [str] is a sequence of code points.  It is modelled
    by [string], each [ascii] standing for one code point in the range
    U+0000..U+00FF; [len], slicing, replacement and pattern matching all
    work code point by code point, as in Python. *)

From stdpp Require Import gmap strings.
From Stdlib Require Import ZArith Ascii.

Local Open Scope string_scope.

(** ** Python built-ins *)

Module Py.

(** [len(s)] *)
Definition len (s : string) : Z := Z.of_nat (String.length s).

(** Truth value of a string: only the empty string is false. *)
Definition truthy (s : string) : bool :=
  match s with
  | EmptyString => false
  | String _ _ => true
  end.

Fixpoint take (n : nat) (s : string) : string :=
  match n, s with
  | S k, String c t => String c (take k t)
  | _, _ => EmptyString
  end.

Fixpoint drop (n : nat) (s : string) : string :=
  match n, s with
  | S k, String _ t => drop k t
  | _, _ => s
  end.

(** Bound of a slice with step 1 on a sequence of length [n]: a negative
    bound counts from the end, and every bound is clipped to [0..n]. *)
Definition adjust_index (i n : Z) : Z :=
  if (i <? 0)%Z then Z.max (i + n) 0 else Z.min i n.

(** [s[start:]] *)
Definition slice_from (s : string) (start : Z) : string :=
  drop (Z.to_nat (adjust_index start (len s))) s.

(** [s[:stop]] *)
Definition slice_to (s : string) (stop : Z) : string :=
  take (Z.to_nat (adjust_index stop (len s))) s.

Fixpoint repeat_str (s : string) (n : nat) : string :=
  match n with
  | O => EmptyString
  | S k => s +:+ repeat_str s k
  end.

(** [s * n]: [n] copies of [s], none when [n <= 0].  Python raises
    [OverflowError] for a count above [sys.maxsize]; that case is not
    modelled, and what is proved of a product has its count within
    [sys.maxsize]. *)
Definition mul (s : string) (n : Z) : string := repeat_str s (Z.to_nat n).

(** [s.startswith(p)] *)
Fixpoint startswith (p s : string) : bool :=
  match p, s with
  | EmptyString, _ => true
  | String a p', String b s' => if decide (a = b) then startswith p' s' else false
  | String _ _, EmptyString => false
  end.

(** [sub in s]: [sub] occurs in [s] at some position. *)
Fixpoint contains (sub s : string) : bool :=
  startswith sub s ||
  match s with
  | EmptyString => false
  | String _ t => contains sub t
  end.

(** [s.replace(old, new)] for a non-empty [old]: the occurrences of
    [old] are found from left to right, each search starting after the
    previous occurrence.  [skip] counts the characters of an occurrence
    still to be passed over. *)
Fixpoint replace_from (old new : string) (skip : nat) (s : string) : string :=
  match s with
  | EmptyString => EmptyString
  | String c t =>
      match skip with
      | S k => replace_from old new k t
      | O =>
          if startswith old s
          then new +:+ replace_from old new (String.length old - 1) t
          else String c (replace_from old new 0 t)
      end
  end.

(** [new] before every character and at the end: what [replace] does
    for an empty [old]. *)
Fixpoint around (new s : string) : string :=
  match s with
  | EmptyString => new
  | String c t => new +:+ String c (around new t)
  end.

(** [s.replace(old, new)] *)
Definition replace (s old new : string) : string :=
  match old with
  | EmptyString => around new s
  | String _ _ => replace_from old new 0 s
  end.

(** Code point of a character. *)
Definition ord (c : ascii) : nat := nat_of_ascii c.

(** [c.lower()] for a code point below 256: the letters A-Z and the
    Latin-1 capitals U+00C0..U+00DE (U+00D7, the multiplication sign,
    is not a letter) move up by 32; nothing else changes. *)
Definition lower_char (c : ascii) : ascii :=
  let n := ord c in
  if (((65 <=? n) && (n <=? 90)) ||
      ((192 <=? n) && (n <=? 222) && negb (n =? 215)))%nat
  then ascii_of_nat (n + 32)
  else c.

(** [s.lower()] for a string of code points below 256, where it works
    character by character.  (On other strings [str.lower] can change the
    length and depends on the neighbours of a character.) *)
Fixpoint lower (s : string) : string :=
  match s with
  | EmptyString => EmptyString
  | String c t => String (lower_char c) (lower t)
  end.

(** [any(f(x) for x in xs)] *)
Definition any {A : Type} (f : A -> bool) (xs : list A) : bool := existsb f xs.

(** [x or y] on an optional string: [None] and the empty string are
    false, so [y] is taken for them. *)
Definition or_else (x : option string) (y : string) : string :=
  match x with
  | Some s => if truthy s then s else y
  | None => y
  end.

End Py.

(** ** Regular expressions, as far as the module uses them *)

Module Re.

(** Pattern syntax: a literal, a bracketed set of ranges [[a-b...]],
    sequence, alternative [|], and the greedy [*]. *)
Inductive regex : Type :=
| Chr (c : ascii)
| Class (ranges : list (ascii * ascii))
| Seq (r1 r2 : regex)
| Alt (r1 r2 : regex)
| Star (r : regex).

Definition in_range (c : ascii) (range : ascii * ascii) : bool :=
  ((Py.ord (fst range) <=? Py.ord c) && (Py.ord c <=? Py.ord (snd range)))%nat.

Definition in_class (ranges : list (ascii * ascii)) (c : ascii) : bool :=
  existsb (in_range c) ranges.

(** Greedy repetition of [body] by backtracking: first one more round
    of [body] (which must consume something) and the repetition again,
    and only if the rest of the pattern [k] fails after that, no more
    rounds.  A round consumes at least one character, so
    [String.length s] rounds are enough. *)
Fixpoint star_loop (body : string -> (string -> option string) -> option string)
    (fuel : nat) (s : string) (k : string -> option string) : option string :=
  match fuel with
  | O => k s
  | S f =>
      match body s (fun s' =>
              if (String.length s' <? String.length s)%nat
              then star_loop body f s' k else None) with
      | Some rest => Some rest
      | None => k s
      end
  end.

(** Backtracking matcher: match [r] at the start of [s], then the rest
    of the pattern [k] on what is left; alternatives are tried in
    order, and the first way to succeed wins. *)
Fixpoint match_k (r : regex) (s : string) (k : string -> option string)
    : option string :=
  match r with
  | Chr c =>
      match s with
      | String c' t => if decide (c = c') then k t else None
      | EmptyString => None
      end
  | Class ranges =>
      match s with
      | String c' t => if in_class ranges c' then k t else None
      | EmptyString => None
      end
  | Seq r1 r2 => match_k r1 s (fun s' => match_k r2 s' k)
  | Alt r1 r2 =>
      match match_k r1 s k with
      | Some rest => Some rest
      | None => match_k r2 s k
      end
  | Star r1 => star_loop (match_k r1) (String.length s) s k
  end.

(** [pattern.match(s)]: what is left of [s] after the match at its
    start, if there is one. *)
Definition match_at (r : regex) (s : string) : option string :=
  match_k r s Some.

(** [pattern.sub(repl, s)] for a pattern that matches no empty string:
    the matches are found from left to right, each search starting
    after the previous match, and each is replaced by [repl].  [skip]
    counts the characters of a match still to be passed over. *)
Fixpoint sub_from (r : regex) (repl : string) (skip : nat) (s : string) : string :=
  match s with
  | EmptyString => EmptyString
  | String c t =>
      match skip with
      | S k => sub_from r repl k t
      | O =>
          match match_at r s with
          | Some rest =>
              repl +:+ sub_from r repl (String.length t - String.length rest) t
          | None => String c (sub_from r repl 0 t)
          end
      end
  end.

Definition sub (r : regex) (repl s : string) : string := sub_from r repl 0 s.

(** The strings a pattern matches in full. *)
Inductive Matches : regex -> string -> Prop :=
| MChr c : Matches (Chr c) (String c "")
| MClass ranges c : in_class ranges c = true -> Matches (Class ranges) (String c "")
| MSeq r1 r2 m1 m2 :
    Matches r1 m1 -> Matches r2 m2 -> Matches (Seq r1 r2) (m1 +:+ m2)
| MAltL r1 r2 m : Matches r1 m -> Matches (Alt r1 r2) m
| MAltR r1 r2 m : Matches r2 m -> Matches (Alt r1 r2) m
| MStarNil r : Matches (Star r) ""
| MStarCons r m1 m2 :
    Matches r m1 -> Matches (Star r) m2 -> Matches (Star r) (m1 +:+ m2).

End Re.

(** ** The module *)

(** Fields that are considered sensitive and should be masked in logs. *)
Definition SENSITIVE_FIELDS : gset string :=
  {[ "password"; "token"; "api_key"; "apikey"; "secret"; "credential";
     "auth"; "authorization"; "access_token"; "refresh_token";
     "private_key"; "secret_key" ]}.

(** [is_sensitive_field(field_name)] *)
Definition is_sensitive_field (field_name : string) : bool :=
  let field_lower := Py.lower field_name in
  Py.any (fun sensitive => Py.contains sensitive field_lower) (elements SENSITIVE_FIELDS).

(** Default of [visible_chars] in [mask_sensitive_value]. *)
Definition visible_chars_default : Z := 4.

(** [mask_sensitive_value(value, visible_chars)] *)
Definition mask_sensitive_value (value : string) (visible_chars : Z) : string :=
  if negb (Py.truthy value) || (Py.len value <=? visible_chars)%Z
  then "****"
  else Py.mul "*" (Py.len value - visible_chars) +:+ Py.slice_from value (- visible_chars).

(** A value passed to the log sanitizer: [None], a string, or any other
    object, of which only the text [str()] gives for it matters. *)
Inductive Any : Type :=
| PyNone
| PyStr (s : string)
| PyObject (text : string).

(** [str(value)] *)
Definition str (value : Any) : string :=
  match value with
  | PyNone => "None"
  | PyStr s => s
  | PyObject text => text
  end.

(** The control characters of the module. *)
Definition LF : ascii := "010"%char.
Definition CR : ascii := "013"%char.
Definition ESC : ascii := "027"%char.

(** The pattern [\x1B(?:[@-Z\\-_]|\[[0-?]*[ -/]*[@-~])]. *)
Definition ansi_escape : Re.regex :=
  Re.Seq (Re.Chr ESC)
    (Re.Alt
       (Re.Class [("@", "Z"); ("\", "_")]%char)
       (Re.Seq (Re.Chr "[")
          (Re.Seq (Re.Star (Re.Class [("0", "?")]%char))
             (Re.Seq (Re.Star (Re.Class [(" ", "/")]%char))
                (Re.Class [("@", "~")]%char))))).

(** Default of [max_length] in [sanitize_for_logging]. *)
Definition max_length_default : Z := 1000.

(** [sanitize_for_logging(value, max_length)] *)
Definition sanitize_for_logging (value : Any) (max_length : Z) : string :=
  match value with
  | PyNone => "None"
  | _ =>
      let str_value := str value in
      let str_value := Py.replace str_value (String CR (String LF "")) "\r\n" in
      let str_value := Py.replace str_value (String LF "") "\n" in
      let str_value := Py.replace str_value (String CR "") "\r" in
      let str_value := Re.sub ansi_escape "" str_value in
      if (Py.len str_value >? max_length)%Z
      then Py.slice_to str_value max_length +:+ "...[truncated]"
      else str_value
  end.

(** [sanitize_log_input(value)] *)
Definition sanitize_log_input (value : Any) : string :=
  sanitize_for_logging value max_length_default.

(** An exception, as far as the module looks at it: the name of its class
    ([type(exc).__name__]) and the message it carries ([str(exc)]). *)
Record exception : Type := Exception {
  type_name : string;
  message : string
}.

(** The local table [safe_messages] of [get_safe_exception_message]. *)
Definition safe_messages : gmap string string :=
  <["ConnectionError" := "Unable to connect to the external service."]>
  (<["TimeoutError" := "The operation timed out."]>
  (<["PermissionError" := "Permission denied."]>
  (<["FileNotFoundError" := "The requested file was not found."]>
  (<["ValidationError" := "The provided data is invalid."]>
  (<["AuthenticationError" := "Authentication failed."]> ∅))))).

(** [get_safe_exception_message(exc, include_type)] *)
Definition get_safe_exception_message (exc : exception) (include_type : bool) : string :=
  let exc_type := type_name exc in
  match safe_messages !! exc_type with
  | Some msg => msg
  | None =>
      if include_type
      then "An error occurred (" +:+ exc_type +:+ "). Please try again or contact support."
      else "An error occurred. Please try again or contact support."
  end.

(** Default of [include_type]. *)
Definition include_type_default : bool := true.

(** [create_generic_error_response(detail)]; [None] is the default of
    [detail]. *)
Definition create_generic_error_response (detail : option string) : gmap string string :=
  {[ "detail" :=
       Py.or_else detail
         "An internal error occurred. Please contact support if the issue persists." ]}.

(** ** Specification vocabulary *)

(** [sub] occurs in [s]. *)
Definition Substring (sub s : string) : Prop :=
  exists pre post, s = pre +:+ sub +:+ post.

(** The six keys of the safe-message table. *)
Definition table_kinds : list string :=
  [ "ConnectionError"; "TimeoutError"; "PermissionError";
    "FileNotFoundError"; "ValidationError"; "AuthenticationError" ].

(** Every character of [s] satisfies [p]. *)
Fixpoint all_chars (p : ascii -> bool) (s : string) : bool :=
  match s with
  | EmptyString => true
  | String c t => p c && all_chars p t
  end.

(** [s] is not empty and its first character fails [p]. *)
Definition starts_outside (p : ascii -> bool) (s : string) : Prop :=
  match s with
  | EmptyString => False
  | String c _ => p c = false
  end.

(** [c] occurs in [s]. *)
Fixpoint occurs (c : ascii) (s : string) : Prop :=
  match s with
  | EmptyString => False
  | String c' t => c' = c \/ occurs c t
  end.

(** The byte classes of escape sequences: Fe bytes [0x40..0x5F];
    parameter bytes [0x30..0x3F]; intermediate bytes [0x20..0x2F]; final
    bytes [0x40..0x7E]. *)
Definition is_Fe (c : ascii) : bool :=
  ((64 <=? Py.ord c) && (Py.ord c <=? 95))%nat.

(** The Fe bytes other than [[] ([0x5B]), which opens a control sequence:
    [0x40..0x5A] and [0x5C..0x5F]. *)
Definition is_Fe_alone (c : ascii) : bool :=
  (is_Fe c && negb (Py.ord c =? 91))%nat.

Definition is_parameter (c : ascii) : bool :=
  ((48 <=? Py.ord c) && (Py.ord c <=? 63))%nat.

Definition is_intermediate (c : ascii) : bool :=
  ((32 <=? Py.ord c) && (Py.ord c <=? 47))%nat.

Definition is_final (c : ascii) : bool :=
  ((64 <=? Py.ord c) && (Py.ord c <=? 126))%nat.

(** An escape sequence: ESC and one Fe byte other than [[], or ESC [[],
    parameter bytes, intermediate bytes and one final byte. *)
Definition AnsiSequence (m : string) : Prop :=
  (exists c, is_Fe_alone c = true /\ m = String ESC (String c "")) \/
  (exists params inters final,
     all_chars is_parameter params = true /\
     all_chars is_intermediate inters = true /\
     is_final final = true /\
     m = String ESC (String "[" (params +:+ inters +:+ String final ""))).

(** [out] is [s] with its escape sequences removed: going through [s]
    from the left, a sequence that starts at the current position is left
    out, and a character at which no sequence starts is kept. *)
Inductive Stripped : string -> string -> Prop :=
| Stripped_end : Stripped "" ""
| Stripped_sequence m rest out :
    AnsiSequence m -> Stripped rest out -> Stripped (m +:+ rest) out
| Stripped_keep c rest out :
    (forall m tail, AnsiSequence m -> String c rest <> m +:+ tail) ->
    Stripped rest out -> Stripped (String c rest) (String c out).

(** The sequences with any Fe byte in the first form, [[] too: ESC and
    one Fe byte, or ESC [[], parameter bytes, intermediate bytes and one
    final byte. *)
Definition FeSequence (m : string) : Prop :=
  (exists c, is_Fe c = true /\ m = String ESC (String c "")) \/
  (exists params inters final,
     all_chars is_parameter params = true /\
     all_chars is_intermediate inters = true /\
     is_final final = true /\
     m = String ESC (String "[" (params +:+ inters +:+ String final ""))).

(** [out] is [s] with the strings of [sequence] removed, going through
    [s] from the left as for [Stripped]. *)
Inductive StrippedOf (sequence : string -> Prop) : string -> string -> Prop :=
| StrippedOf_end : StrippedOf sequence "" ""
| StrippedOf_sequence m rest out :
    sequence m -> StrippedOf sequence rest out ->
    StrippedOf sequence (m +:+ rest) out
| StrippedOf_keep c rest out :
    (forall m tail, sequence m -> String c rest <> m +:+ tail) ->
    StrippedOf sequence rest out ->
    StrippedOf sequence (String c rest) (String c out).

(** The text a character is escaped to: backslash and [n] for a newline,
    backslash and [r] for a carriage return, itself otherwise. *)
Definition escape_char (c : ascii) : string :=
  if decide (c = LF) then "\n"
  else if decide (c = CR) then "\r"
  else String c "".

(** [f c] for every character [c] of [s], in order. *)
Fixpoint map_chars (f : ascii -> string) (s : string) : string :=
  match s with
  | EmptyString => EmptyString
  | String c t => f c +:+ map_chars f t
  end.

(** [s] with every newline and carriage return escaped. *)
Definition escaped (s : string) : string := map_chars escape_char s.

(** The three replacements of [sanitize_for_logging], in its order. *)
Definition after_replacements (s : string) : string :=
  let s := Py.replace s (String CR (String LF "")) "\r\n" in
  let s := Py.replace s (String LF "") "\n" in
  Py.replace s (String CR "") "\r".

(** The string [sanitize_for_logging] has after escaping and removal of
    escape sequences, before it looks at [max_length]. *)
Definition sanitized_text (value : Any) : string :=
  Re.sub ansi_escape "" (after_replacements (str value)).

(** The suffix that marks a cut. *)
Definition truncated_suffix : string := "...[truncated]".

(** The last step of [sanitize_for_logging]. *)
Definition truncated (s : string) (max_length : Z) : string :=
  if (Py.len s >? max_length)%Z
  then Py.slice_to s max_length +:+ truncated_suffix
  else s.

(** The first [n] characters of [s]. *)
Definition first_chars (n : Z) (s : string) : string := Py.take (Z.to_nat n) s.

(** What is said of the removal, with every Fe byte in the first form:
    for an input other than [None], the result is the last step applied
    to the escaped input with those sequences removed. *)
Definition removal_statement (value : Any) (max_length : Z) : Prop :=
  value <> PyNone ->
  exists out,
    StrippedOf FeSequence (escaped (str value)) out /\
    sanitize_for_logging value max_length = truncated out max_length.

(** What is said of the cut, for any input and any [max_length]: a text
    longer than [max_length] is cut to its first [max_length] characters
    and the suffix is added. *)
Definition truncation_statement (value : Any) (max_length : Z) : Prop :=
  (Py.len (sanitized_text value) > max_length)%Z ->
  sanitize_for_logging value max_length
  = first_chars max_length (sanitized_text value) +:+ truncated_suffix.

(** [s] ends with [suffix]. *)
Definition ends_with (s suffix : string) : Prop := exists pre, s = pre +:+ suffix.

(** The fixed texts of the module. *)
Definition generic_detail : string :=
  "An internal error occurred. Please contact support if the issue persists.".

Definition generic_fallback : string :=
  "An error occurred. Please try again or contact support.".

(** [n] asterisk characters. *)
Fixpoint asterisks (n : nat) : string :=
  match n with
  | O => EmptyString
  | S k => String "*"%char (asterisks k)
  end.

(** What is said of an exception [exc] whose kind is not in the table: with
    [include_type] the kind is spliced into the text, and without it the
    result does not contain the kind name. *)
Definition unknown_kind_statement (exc : exception) : Prop :=
  safe_messages !! type_name exc = None ->
  (get_safe_exception_message exc true =
     "An error occurred (" +:+ type_name exc +:+ "). Please try again or contact support."
   /\ Substring (type_name exc) (get_safe_exception_message exc true))
  /\
  (get_safe_exception_message exc false = generic_fallback
   /\ ~ Substring (type_name exc) (get_safe_exception_message exc false)).

(** What is said of [create_generic_error_response]: one key, the fixed
    text without a detail, and any given detail string unchanged. *)
Definition response_statement (detail : option string) : Prop :=
  dom (create_generic_error_response detail) = ({[ "detail" ]} : gset string) /\
  (detail = None ->
   create_generic_error_response detail !! "detail" = Some generic_detail) /\
  (forall s, detail = Some s ->
   create_generic_error_response detail !! "detail" = Some s).

(** A matcher for [r] returns only what the rest of the pattern returned,
    on what was left after a string of [r]. *)
Definition sound_for (r : Re.regex)
    (body : string -> (string -> option string) -> option string) : Prop :=
  forall s k x, body s k = Some x ->
    exists m rest, s = m +:+ rest /\ Re.Matches r m /\ k rest = Some x.

(** A matcher for [r] succeeds whenever a string of [r] is followed by
    something the rest of the pattern accepts. *)
Definition complete_for (r : Re.regex)
    (body : string -> (string -> option string) -> option string) : Prop :=
  forall m, Re.Matches r m -> forall rest k,
    is_Some (k rest) -> is_Some (body (m +:+ rest) k).


(** The names of [SENSITIVE_FIELDS] that contain no other name of it. *)
Definition core_sensitive_names : list string :=
  [ "password"; "token"; "api_key"; "apikey"; "secret"; "credential";
    "auth"; "private_key" ].

(** The texts [get_safe_exception_message] is written to return when the
    kind name is not to be shown: the six of the table and the fallback. *)
Definition fixed_messages : list string :=
  [ "Unable to connect to the external service."; "The operation timed out.";
    "Permission denied."; "The requested file was not found.";
    "The provided data is invalid."; "Authentication failed.";
    generic_fallback ].

(** No newline, no carriage return and no ESC in [s]. *)
Definition plain (s : string) : Prop :=
  ~ occurs LF s /\ ~ occurs CR s /\ ~ occurs ESC s.

(** Case analysis on all 256 characters. *)
Ltac by_character c :=
  destruct c as [[] [] [] [] [] [] [] []]; try reflexivity; try discriminate.

(** ** Strings: basic facts *)

Section StringFacts.

Implicit Types s t u : string.

Lemma app_cons c s t : String c s +:+ t = String c (s +:+ t).
Proof. reflexivity. Qed.

Lemma app_empty_l s : "" +:+ s = s.
Proof. reflexivity. Qed.

Lemma app_empty_r s : s +:+ "" = s.
Proof. induction s as [|c s IH]; [reflexivity | now rewrite app_cons, IH]. Qed.

Lemma app_assoc_str s t u : (s +:+ t) +:+ u = s +:+ (t +:+ u).
Proof. induction s as [|c s IH]; [reflexivity | now rewrite !app_cons, IH]. Qed.

Lemma length_app_str s t :
  String.length (s +:+ t) = (String.length s + String.length t)%nat.
Proof. induction s as [|c s IH]; [reflexivity | rewrite app_cons; simpl; now rewrite IH]. Qed.

Lemma take_drop n s : Py.take n s +:+ Py.drop n s = s.
Proof.
  revert s; induction n as [|n IH]; intros [|c s]; simpl; try reflexivity.
  now rewrite app_cons, IH.
Qed.

Lemma length_take n s : (n <= String.length s)%nat -> String.length (Py.take n s) = n.
Proof.
  revert s; induction n as [|n IH]; intros [|c s]; simpl; intros H; try lia.
  rewrite IH; lia.
Qed.

Lemma length_drop n s : String.length (Py.drop n s) = (String.length s - n)%nat.
Proof.
  revert s; induction n as [|n IH]; intros [|c s]; simpl; try lia.
  apply IH.
Qed.

Lemma take_all n s : (String.length s <= n)%nat -> Py.take n s = s.
Proof.
  revert s; induction n as [|n IH]; intros [|c s]; simpl; intros H; try reflexivity; try lia.
  rewrite IH; [reflexivity | lia].
Qed.

Lemma repeat_star n : Py.repeat_str "*" n = asterisks n.
Proof. induction n as [|n IH]; simpl; [reflexivity | now rewrite app_cons, app_empty_l, IH]. Qed.

Lemma length_asterisks n : String.length (asterisks n) = n.
Proof. induction n as [|n IH]; simpl; [reflexivity | now rewrite IH]. Qed.

Lemma drop_app s t : Py.drop (String.length s) (s +:+ t) = t.
Proof. induction s as [|c s IH]; [now destruct t | rewrite app_cons; simpl; exact IH]. Qed.

Lemma app_inv_head s t u : s +:+ t = s +:+ u -> t = u.
Proof.
  induction s as [|c s IH]; [trivial|].
  rewrite !app_cons. intros H. injection H. exact IH.
Qed.

Lemma app_eq_app_str s t u v :
  s +:+ t = u +:+ v ->
  (exists e, s = u +:+ e /\ v = e +:+ t) \/ (exists e, u = s +:+ e /\ t = e +:+ v).
Proof.
  revert u. induction s as [|x s IH]; intros u H.
  - right. exists u. now split.
  - destruct u as [|y u].
    + left. exists (String x s). now split.
    + rewrite !app_cons in H. injection H as -> H.
      destruct (IH u H) as [(e & -> & ->) | (e & -> & ->)]; [left | right];
        exists e; now rewrite app_cons.
Qed.

Lemma all_chars_ext (p q : ascii -> bool) (Hpq : forall c, p c = q c) s :
  all_chars p s = all_chars q s.
Proof. induction s as [|c s IH]; simpl; [reflexivity | now rewrite Hpq, IH]. Qed.

Lemma all_chars_app (p : ascii -> bool) s t :
  all_chars p (s +:+ t) = all_chars p s && all_chars p t.
Proof.
  induction s as [|c s IH]; [reflexivity|].
  rewrite app_cons. simpl. now rewrite IH, andb_assoc.
Qed.

Lemma occurs_app c s t : occurs c (s +:+ t) <-> occurs c s \/ occurs c t.
Proof.
  induction s as [|c' s IH]; [simpl; tauto|].
  rewrite app_cons. simpl. rewrite IH. tauto.
Qed.

Lemma occurs_all_chars (p : ascii -> bool) c s :
  all_chars p s = true -> occurs c s -> p c = true.
Proof.
  induction s as [|c' s IH]; simpl; [tauto|].
  intros H [-> | Hc]; apply andb_true_iff in H; [tauto | apply IH; tauto].
Qed.

End StringFacts.

(** ** [mask_sensitive_value] *)

Example mask_empty : mask_sensitive_value "" visible_chars_default = "****".
Proof. reflexivity. Qed.

Example mask_abc : mask_sensitive_value "abc" visible_chars_default = "****".
Proof. reflexivity. Qed.

Example mask_abcdefgh : mask_sensitive_value "abcdefgh" visible_chars_default = "****efgh".
Proof. reflexivity. Qed.

Example mask_zero_secret : mask_sensitive_value "secret" 0 = "******secret".
Proof. reflexivity. Qed.

(** The branch of [mask_sensitive_value] taken for a value longer than a
    positive [visible_chars]: the value splits into a hidden prefix and a
    shown suffix of [visible_chars] characters.  ([visible_chars = 0] is
    different: [value[-0:]] is [value[0:]], the whole value.) *)
Lemma mask_long (value : string) (v : Z) :
  (0 < v < Py.len value)%Z ->
  mask_sensitive_value value v =
    asterisks (String.length value - Z.to_nat v) +:+
    Py.drop (String.length value - Z.to_nat v) value.
Proof.
  intros Hv. unfold mask_sensitive_value.
  assert (Hne : Py.truthy value = true).
  { destruct value; [unfold Py.len in Hv; simpl in Hv; lia | reflexivity]. }
  rewrite Hne. cbn [negb orb].
  destruct (Z.leb_spec (Py.len value) v) as [Hle|_]; [lia|].
  unfold Py.mul, Py.slice_from, Py.adjust_index.
  rewrite repeat_star.
  destruct (Z.ltb_spec (- v) 0) as [Hneg|Hzero]; unfold Py.len in *.
  all: repeat f_equal; lia.
Qed.

(** C2: with [visible_chars = 0] a non-empty value is returned whole,
    behind as many asterisks as it has characters: nothing is hidden. *)
Theorem mask_sensitive_value_zero_visible (value : string) :
  value <> "" ->
  mask_sensitive_value value 0 = asterisks (String.length value) +:+ value.
Proof.
  intros Hne. destruct value as [|c value]; [congruence|].
  unfold mask_sensitive_value. cbn [Py.truthy negb orb].
  destruct (Z.leb_spec (Py.len (String c value)) 0) as [Hle|_].
  { unfold Py.len in Hle; simpl in Hle; lia. }
  unfold Py.mul, Py.slice_from, Py.adjust_index. rewrite repeat_star.
  change (- 0 <? 0)%Z with false. cbn match.
  rewrite Z.sub_0_r. unfold Py.len. rewrite Nat2Z.id.
  replace (Z.to_nat (0 `min` Z.of_nat (String.length (String c value)))) with O by lia.
  reflexivity.
Qed.

Lemma mask_sensitive_value_zero_visible_witness :
  "hunter2" <> "" /\
  mask_sensitive_value "hunter2" 0 = "*******hunter2".
Proof.
  split; [discriminate | exact (mask_sensitive_value_zero_visible "hunter2" ltac:(discriminate))].
Defined.

(** C4: with the default [visible_chars = 4], an empty value or one of at
    most four characters gives the literal [****]; a longer value splits as
    [hidden ++ shown] with [shown] its last four characters, and the result
    is one asterisk per hidden character followed by [shown], of the same
    length as the value. *)
Theorem mask_sensitive_value_default_spec (value : string) :
  (value = "" \/ (Py.len value <= visible_chars_default)%Z ->
   mask_sensitive_value value visible_chars_default = "****") /\
  (~ (value = "" \/ (Py.len value <= visible_chars_default)%Z) ->
   exists hidden shown,
     value = hidden +:+ shown /\
     Py.len shown = visible_chars_default /\
     Py.len hidden = (Py.len value - visible_chars_default)%Z /\
     mask_sensitive_value value visible_chars_default =
       asterisks (String.length hidden) +:+ shown /\
     String.length (mask_sensitive_value value visible_chars_default) =
       String.length value).
Proof.
  unfold visible_chars_default. split.
  - intros [-> | Hle]; [reflexivity|].
    unfold mask_sensitive_value.
    destruct (Z.leb_spec (Py.len value) 4) as [_|Hgt]; [|lia].
    now rewrite orb_true_r.
  - intros Hlong.
    assert (Hlen : (4 < Py.len value)%Z) by lia.
    set (k := (String.length value - 4)%nat).
    exists (Py.take k value), (Py.drop k value).
    assert (Hk : (k <= String.length value)%nat) by (unfold k; lia).
    assert (Hmask : mask_sensitive_value value 4 = asterisks k +:+ Py.drop k value).
    { rewrite mask_long by lia. reflexivity. }
    unfold Py.len in *.
    rewrite length_drop, length_take by exact Hk.
    repeat split.
    + symmetry; apply take_drop.
    + unfold k; lia.
    + unfold k; lia.
    + exact Hmask.
    + rewrite Hmask, length_app_str, length_asterisks, length_drop. lia.
Qed.

Lemma mask_sensitive_value_default_spec_witness :
  mask_sensitive_value "abc" visible_chars_default = "****" /\
  exists hidden shown,
    "abcdefgh" = hidden +:+ shown /\
    Py.len shown = visible_chars_default /\
    Py.len hidden = (Py.len "abcdefgh" - visible_chars_default)%Z /\
    mask_sensitive_value "abcdefgh" visible_chars_default =
      asterisks (String.length hidden) +:+ shown /\
    String.length (mask_sensitive_value "abcdefgh" visible_chars_default) =
      String.length "abcdefgh".
Proof.
  split.
  - apply (proj1 (mask_sensitive_value_default_spec "abc")).
    right. vm_compute. discriminate.
  - apply (proj2 (mask_sensitive_value_default_spec "abcdefgh")).
    intros [H | H]; [discriminate | vm_compute in H; apply H; reflexivity].
Defined.

(** ** Substring test *)

Section Contains.

Implicit Types sub s t : string.

Lemma startswith_spec sub s :
  Py.startswith sub s = true <-> exists post, s = sub +:+ post.
Proof.
  revert s; induction sub as [|a sub IH]; intros s.
  - split; [intros _; exists s; reflexivity | reflexivity].
  - destruct s as [|b s]; simpl.
    + split; [discriminate | intros [post H]; discriminate].
    + destruct (decide (a = b)) as [->|Hab].
      * rewrite IH. split; intros [post H]; exists post.
        -- now rewrite app_cons, H.
        -- rewrite app_cons in H. now injection H.
      * split; [discriminate | intros [post H]].
        rewrite app_cons in H. injection H; intros; congruence.
Qed.

Lemma contains_spec sub s : Py.contains sub s = true <-> Substring sub s.
Proof.
  unfold Substring. induction s as [|c s IH].
  - simpl. rewrite orb_false_r, startswith_spec. split.
    + intros [post H]. exists "", post. exact H.
    + intros [[|a pre] [post H]]; [exists post; exact H | discriminate].
  - cbn [Py.contains]. rewrite orb_true_iff, IH, startswith_spec. split.
    + intros [[post H] | [pre [post H]]].
      * exists "", post. exact H.
      * exists (String c pre), post. now rewrite app_cons, H.
    + intros [[|a pre] [post H]].
      * left. exists post. exact H.
      * right. rewrite app_cons in H. injection H as -> H.
        exists pre, post. exact H.
Qed.

Lemma Substring_middle pre sub post : Substring sub (pre +:+ sub +:+ post).
Proof. exists pre, post. reflexivity. Qed.

End Contains.

(** ** [get_safe_exception_message] *)

Lemma safe_messages_dom : dom safe_messages = list_to_set table_kinds.
Proof. unfold safe_messages, table_kinds. rewrite !dom_insert_L, dom_empty_L. set_solver. Qed.

Lemma safe_messages_None (kind : string) :
  safe_messages !! kind = None <-> kind ∉ table_kinds.
Proof.
  rewrite <- not_elem_of_dom, safe_messages_dom. set_solver.
Qed.

Example safe_message_timeout :
  get_safe_exception_message (Exception "TimeoutError" "read of 10.0.0.7:5432 timed out") true
  = "The operation timed out.".
Proof. reflexivity. Qed.

Example safe_message_key_error :
  get_safe_exception_message (Exception "KeyError" "'db_password'") true
  = "An error occurred (KeyError). Please try again or contact support.".
Proof. reflexivity. Qed.

(** C5: for each of the six kinds of the table there is one fixed message,
    the table's, that [get_safe_exception_message] returns for every
    exception of that kind, whatever the exception's message text (and
    whatever [include_type]). *)
Theorem get_safe_exception_message_known_kind (kind : string) :
  kind ∈ table_kinds ->
  exists msg,
    safe_messages !! kind = Some msg /\
    forall (exc : exception) (include_type : bool),
      type_name exc = kind ->
      get_safe_exception_message exc include_type = msg.
Proof.
  intros Hin.
  assert (Hsome : is_Some (safe_messages !! kind)).
  { apply elem_of_dom. rewrite safe_messages_dom. set_solver. }
  destruct Hsome as [msg Hmsg]. exists msg. split; [exact Hmsg|].
  intros exc include_type Hk. unfold get_safe_exception_message.
  cbn zeta. now rewrite Hk, Hmsg.
Qed.

Lemma get_safe_exception_message_known_kind_witness :
  exists msg,
    safe_messages !! "PermissionError" = Some msg /\
    forall (exc : exception) (include_type : bool),
      type_name exc = "PermissionError" ->
      get_safe_exception_message exc include_type = msg.
Proof.
  apply (get_safe_exception_message_known_kind "PermissionError").
  unfold table_kinds. set_solver.
Defined.

(** The six table entries, one by one. *)
Lemma safe_messages_entries :
  safe_messages !! "ConnectionError" = Some "Unable to connect to the external service." /\
  safe_messages !! "TimeoutError" = Some "The operation timed out." /\
  safe_messages !! "PermissionError" = Some "Permission denied." /\
  safe_messages !! "FileNotFoundError" = Some "The requested file was not found." /\
  safe_messages !! "ValidationError" = Some "The provided data is invalid." /\
  safe_messages !! "AuthenticationError" = Some "Authentication failed.".
Proof. repeat split; reflexivity. Qed.

(** An exception class may be called [error] (as [struct.error] is); the
    fixed fallback text contains that word. *)
Lemma unknown_kind_statement_fails :
  ~ unknown_kind_statement (Exception "error" "unpack requires a buffer of 4 bytes").
Proof.
  intros H. destruct (H eq_refl) as [_ [_ Hno]].
  apply Hno. exists "An ", " occurred. Please try again or contact support.".
  reflexivity.
Qed.

(** C3, amended: for an exception whose kind is not in the table, with
    [include_type] the result is the text with the kind name spliced in,
    and so contains the kind name; without it the result is the fixed
    fallback text, which is the same for every kind and contains the kind
    name only if the fallback text itself happens to contain it. *)
Theorem get_safe_exception_message_unknown_kind (exc : exception) :
  safe_messages !! type_name exc = None ->
  (get_safe_exception_message exc true =
     "An error occurred (" +:+ type_name exc +:+ "). Please try again or contact support."
   /\ Substring (type_name exc) (get_safe_exception_message exc true))
  /\
  (get_safe_exception_message exc false = generic_fallback
   /\ (~ Substring (type_name exc) generic_fallback ->
       ~ Substring (type_name exc) (get_safe_exception_message exc false))).
Proof.
  intros Hnone. unfold get_safe_exception_message. cbn zeta. rewrite Hnone.
  repeat split.
  - apply Substring_middle.
  - intros Hno. exact Hno.
Qed.

Lemma get_safe_exception_message_unknown_kind_witness :
  (get_safe_exception_message (Exception "KeyError" "'db_password'") true =
     "An error occurred (KeyError). Please try again or contact support."
   /\ Substring "KeyError" (get_safe_exception_message (Exception "KeyError" "'db_password'") true))
  /\
  (get_safe_exception_message (Exception "KeyError" "'db_password'") false = generic_fallback
   /\ (~ Substring "KeyError" generic_fallback ->
       ~ Substring "KeyError"
           (get_safe_exception_message (Exception "KeyError" "'db_password'") false))).
Proof.
  apply (get_safe_exception_message_unknown_kind (Exception "KeyError" "'db_password'")).
  reflexivity.
Defined.

(** The fallback text does not contain [KeyError], so the premise of the
    last part above is met there. *)
Example fallback_hides_KeyError : ~ Substring "KeyError" generic_fallback.
Proof. rewrite <- contains_spec. vm_compute. discriminate. Qed.

(** ** [create_generic_error_response] *)

Example response_default :
  create_generic_error_response None = {[ "detail" := generic_detail ]}.
Proof. reflexivity. Qed.

Example response_not_found :
  create_generic_error_response (Some "Project not found.") =
  {[ "detail" := "Project not found." ]}.
Proof. reflexivity. Qed.

(** An empty detail string is false for [or], and is replaced. *)
Lemma response_statement_fails : ~ response_statement (Some "").
Proof.
  intros (_ & _ & H). specialize (H "" eq_refl).
  unfold create_generic_error_response in H.
  rewrite lookup_singleton_eq in H. discriminate H.
Qed.

(** C1, amended: the result has the single key [detail]; its value is the
    fixed text when no detail is given, and also when the detail is the
    empty string; every non-empty detail string is the value unchanged. *)
Theorem create_generic_error_response_spec (detail : option string) :
  dom (create_generic_error_response detail) = ({[ "detail" ]} : gset string) /\
  (detail = None ->
   create_generic_error_response detail !! "detail" = Some generic_detail) /\
  (detail = Some "" ->
   create_generic_error_response detail !! "detail" = Some generic_detail) /\
  (forall s, detail = Some s -> s <> "" ->
   create_generic_error_response detail !! "detail" = Some s).
Proof.
  unfold create_generic_error_response.
  rewrite dom_singleton_L, lookup_singleton_eq.
  split; [reflexivity|]. split; [|split].
  - intros ->. reflexivity.
  - intros ->. reflexivity.
  - intros s -> Hne. destruct s; [congruence | reflexivity].
Qed.

Lemma create_generic_error_response_spec_witness :
  create_generic_error_response None !! "detail" = Some generic_detail /\
  create_generic_error_response (Some "") !! "detail" = Some generic_detail /\
  create_generic_error_response (Some "Project not found.") !! "detail"
    = Some "Project not found.".
Proof.
  split; [|split].
  - apply (proj1 (proj2 (create_generic_error_response_spec None))). reflexivity.
  - apply (proj1 (proj2 (proj2 (create_generic_error_response_spec (Some ""))))). reflexivity.
  - apply (proj2 (proj2 (proj2 (create_generic_error_response_spec (Some "Project not found."))))
             "Project not found."); [reflexivity | discriminate].
Defined.

(** ** The matcher finds exactly the strings of the pattern *)

Section Matcher.

Import Re.

Implicit Types (r : regex) (s m rest : string) (k : string -> option string).

Lemma star_loop_sound r body :
  sound_for r body ->
  forall fuel, sound_for (Star r) (star_loop body fuel).
Proof.
  intros Hbody fuel. induction fuel as [|f IH]; intros s k x H.
  - exists "", s. repeat split; [constructor | exact H].
  - cbn [star_loop] in H.
    destruct (body s _) as [y|] eqn:Hb.
    + injection H as ->.
      apply Hbody in Hb. destruct Hb as (m1 & rest1 & -> & Hm1 & Hk).
      destruct (_ <? _)%nat; [|discriminate].
      apply IH in Hk. destruct Hk as (m2 & rest & -> & Hm2 & Hk).
      exists (m1 +:+ m2), rest. rewrite app_assoc_str.
      repeat split; [now constructor | exact Hk].
    + exists "", s. repeat split; [constructor | exact H].
Qed.

Theorem match_k_sound r : sound_for r (match_k r).
Proof.
  induction r as [c | ranges | r1 IH1 r2 IH2 | r1 IH1 r2 IH2 | r1 IH1];
    intros s k x H; cbn [match_k] in H.
  - destruct s as [|c' t]; [discriminate|].
    destruct (decide (c = c')) as [<-|]; [|discriminate].
    exists (String c ""), t. repeat split; [constructor | exact H].
  - destruct s as [|c' t]; [discriminate|].
    destruct (in_class ranges c') eqn:Hc; [|discriminate].
    exists (String c' ""), t. repeat split; [now constructor | exact H].
  - apply IH1 in H. destruct H as (m1 & rest1 & -> & Hm1 & H).
    apply IH2 in H. destruct H as (m2 & rest & -> & Hm2 & H).
    exists (m1 +:+ m2), rest. rewrite app_assoc_str.
    repeat split; [now constructor | exact H].
  - destruct (match_k r1 s k) as [y|] eqn:H1.
    + injection H as ->. apply IH1 in H1.
      destruct H1 as (m & rest & -> & Hm & H).
      exists m, rest. repeat split; [now apply MAltL | exact H].
    + apply IH2 in H. destruct H as (m & rest & -> & Hm & H).
      exists m, rest. repeat split; [now apply MAltR | exact H].
  - exact (star_loop_sound r1 _ IH1 _ s k x H).
Qed.

Lemma star_loop_complete r body :
  complete_for r body ->
  forall m, Matches (Star r) m ->
  forall fuel rest k,
    (String.length (m +:+ rest) <= fuel)%nat ->
    is_Some (k rest) -> is_Some (star_loop body fuel (m +:+ rest) k).
Proof.
  intros Hbody m Hm. remember (Star r) as sr eqn:Hsr.
  induction Hm as [| | | | | r' | r' m1 m2 Hm1 _ Hm2 IH2]; try discriminate.
  - intros fuel rest k _ Hk. rewrite app_empty_l.
    destruct fuel as [|f]; cbn [star_loop]; [exact Hk|].
    destruct (body rest _); [eauto | exact Hk].
  - injection Hsr as ->. specialize (IH2 eq_refl).
    intros fuel rest k Hfuel Hk.
    destruct m1 as [|c m1].
    + rewrite app_empty_l in *. now apply IH2.
    + rewrite app_assoc_str in *.
      assert (Hlen : String.length (String c m1 +:+ m2 +:+ rest)
                     = S (String.length m1 + String.length (m2 +:+ rest))).
      { rewrite app_cons. simpl. now rewrite length_app_str. }
      destruct fuel as [|f]; [lia|].
      cbn [star_loop].
      match goal with |- context [body _ ?k'] => set (kont := k') end.
      destruct (Hbody (String c m1) Hm1 (m2 +:+ rest) kont) as [y Hy].
      * unfold kont. rewrite Hlen.
        destruct (Nat.ltb_spec (String.length (m2 +:+ rest))
                    (S (String.length m1 + String.length (m2 +:+ rest)))) as [_|Hge];
          [|lia].
        apply IH2; [lia | exact Hk].
      * rewrite Hy. eauto.
Qed.

Theorem match_k_complete r : complete_for r (match_k r).
Proof.
  induction r as [c | ranges | r1 IH1 r2 IH2 | r1 IH1 r2 IH2 | r1 IH1];
    intros m Hm rest k Hk; inversion Hm; subst; cbn [match_k].
  - rewrite app_cons, app_empty_l. now rewrite decide_True.
  - rewrite app_cons, app_empty_l.
    match goal with H : in_class _ _ = true |- _ => now rewrite H end.
  - rewrite app_assoc_str. apply IH1; [assumption|]. now apply IH2.
  - destruct (IH1 m ltac:(assumption) rest k Hk) as [y Hy]. rewrite Hy. eauto.
  - destruct (match_k r1 (m +:+ rest) k); [eauto|]. now apply IH2.
  - rewrite app_empty_l.
    now apply (star_loop_complete r1 _ IH1 "" (MStarNil r1) _ rest k).
  - now apply (star_loop_complete r1 _ IH1 _ Hm _ rest k).
Qed.

(** [match_at] finds a match exactly when a string of the pattern
    starts the input, and what it leaves is what follows one. *)
Corollary match_at_Some r s rest :
  match_at r s = Some rest -> exists m, Matches r m /\ s = m +:+ rest.
Proof.
  intros H. apply match_k_sound in H.
  destruct H as (m & rest' & -> & Hm & Hk). injection Hk as ->. eauto.
Qed.

Corollary match_at_is_Some r m rest :
  Matches r m -> is_Some (match_at r (m +:+ rest)).
Proof. intros Hm. apply match_k_complete; eauto. Qed.

End Matcher.

(** ** The pattern of the module and escape sequences *)

Section AnsiPattern.

Import Re.

Implicit Types (s m rest : string) (c : ascii).

Lemma class_Fe c : in_class [("@", "Z"); ("\", "_")]%char c = is_Fe_alone c.
Proof. by_character c. Qed.

Lemma class_parameter c : in_class [("0", "?")]%char c = is_parameter c.
Proof. by_character c. Qed.

Lemma class_intermediate c : in_class [(" ", "/")]%char c = is_intermediate c.
Proof. by_character c. Qed.

Lemma class_final c : in_class [("@", "~")]%char c = is_final c.
Proof. by_character c. Qed.

(** The classes that follow each other in a control sequence are
    disjoint, [[] is not an Fe byte here, and ESC is in no class. *)
Lemma intermediate_not_parameter c : is_intermediate c = true -> is_parameter c = false.
Proof. by_character c. Qed.

Lemma final_not_parameter c : is_final c = true -> is_parameter c = false.
Proof. by_character c. Qed.

Lemma final_not_intermediate c : is_final c = true -> is_intermediate c = false.
Proof. by_character c. Qed.

Lemma bracket_not_Fe_alone : is_Fe_alone "[" = false.
Proof. reflexivity. Qed.

Lemma star_class_all ranges m :
  Matches (Star (Class ranges)) m <-> all_chars (in_class ranges) m = true.
Proof.
  split.
  - intros H. remember (Star (Class ranges)) as sr eqn:Hsr.
    induction H as [| | | | | r | r m1 m2 H1 _ H2 IH2]; try discriminate.
    + reflexivity.
    + injection Hsr as ->. inversion H1; subst.
      rewrite app_cons, app_empty_l. cbn [all_chars].
      rewrite IH2 by reflexivity. now rewrite andb_true_r.
  - induction m as [|c m IH]; cbn [all_chars]; intros H.
    + constructor.
    + apply andb_true_iff in H. destruct H as [Hc Hm].
      change (String c m) with (String c "" +:+ m).
      constructor; [now constructor | now apply IH].
Qed.

(** The strings of the pattern are the escape sequences. *)
Theorem ansi_escape_matches m : Matches ansi_escape m <-> AnsiSequence m.
Proof.
  unfold ansi_escape, AnsiSequence. split.
  - intros H. inversion H as [| | ? ? m1 m2 Hesc Halt | | | | ]; subst.
    inversion Hesc; subst. rewrite app_cons, app_empty_l.
    inversion Halt as [| | | ? ? ? Hfe | ? ? ? Hcsi | | ]; subst.
    + left. inversion Hfe; subst. rewrite class_Fe in *. eauto.
    + right.
      inversion Hcsi as [| | ? ? b1 b2 Hb Hp | | | | ]; subst.
      inversion Hb; subst.
      inversion Hp as [| | ? ? params b3 Hparams Hi | | | | ]; subst.
      inversion Hi as [| | ? ? inters b4 Hinters Hf | | | | ]; subst.
      inversion Hf; subst.
      apply star_class_all in Hparams, Hinters.
      exists params, inters, c.
      rewrite <- class_final.
      erewrite <- (all_chars_ext _ _ class_parameter).
      erewrite <- (all_chars_ext _ _ class_intermediate).
      repeat split; try assumption.
  - intros [(c & Hc & ->) | (params & inters & final & Hp & Hi & Hf & ->)].
    + change (String ESC (String c "")) with (String ESC "" +:+ String c "").
      constructor; [constructor|]. apply MAltL. constructor. now rewrite class_Fe.
    + change (String ESC (String "[" (params +:+ inters +:+ String final "")))
        with (String ESC "" +:+ (String "[" "" +:+ (params +:+ (inters +:+ String final "")))).
      constructor; [constructor|]. apply MAltR.
      constructor; [constructor|].
      constructor; [|constructor].
      * apply star_class_all.
        now rewrite (all_chars_ext _ _ class_parameter).
      * apply star_class_all.
        now rewrite (all_chars_ext _ _ class_intermediate).
      * constructor. now rewrite class_final.
Qed.

End AnsiPattern.

(** ** At most one escape sequence starts at a position *)

Section Unique.

Implicit Types (s m rest xs ys a b : string) (c : ascii) (p : ascii -> bool).

(** A run of [p]-characters followed by a character outside [p] ends at
    that character, however the string is cut. *)
Lemma run_unique p xs ys a b :
  all_chars p xs = true -> all_chars p ys = true ->
  starts_outside p a -> starts_outside p b ->
  xs +:+ a = ys +:+ b -> xs = ys /\ a = b.
Proof.
  revert ys. induction xs as [|x xs IH]; intros [|y ys] Hxs Hys Ha Hb Heq.
  - now split.
  - rewrite app_empty_l, app_cons in Heq. subst a.
    cbn in Ha, Hys. apply andb_true_iff in Hys. destruct Hys; congruence.
  - rewrite app_empty_l, app_cons in Heq. subst b.
    cbn in Hb, Hxs. apply andb_true_iff in Hxs. destruct Hxs; congruence.
  - rewrite !app_cons in Heq. injection Heq as -> Heq.
    cbn in Hxs, Hys. apply andb_true_iff in Hxs, Hys.
    destruct (IH ys) as [-> ->]; tauto.
Qed.

Lemma starts_outside_run p q xs c rest :
  (forall x, q x = true -> p x = false) ->
  all_chars q xs = true -> p c = false ->
  starts_outside p (xs +:+ String c rest).
Proof.
  intros Hqp Hxs Hc. destruct xs as [|x xs]; [exact Hc|].
  rewrite app_cons. cbn in *. apply andb_true_iff in Hxs. now apply Hqp.
Qed.

Theorem AnsiSequence_unique m1 m2 rest1 rest2 :
  AnsiSequence m1 -> AnsiSequence m2 ->
  m1 +:+ rest1 = m2 +:+ rest2 -> m1 = m2 /\ rest1 = rest2.
Proof.
  intros [(c1 & Hc1 & ->) | (p1 & i1 & f1 & Hp1 & Hi1 & Hf1 & ->)]
         [(c2 & Hc2 & ->) | (p2 & i2 & f2 & Hp2 & Hi2 & Hf2 & ->)];
    rewrite ?app_cons, ?app_empty_l; intros Heq.
  - injection Heq as -> ->. now split.
  - injection Heq as -> _. now rewrite bracket_not_Fe_alone in Hc1.
  - injection Heq as <- _. now rewrite bracket_not_Fe_alone in Hc2.
  - injection Heq as Heq. rewrite !app_assoc_str, !app_cons, !app_empty_l in Heq.
    apply (run_unique is_parameter) in Heq; try assumption.
    + destruct Heq as [-> Heq].
      apply (run_unique is_intermediate) in Heq; try assumption.
      * destruct Heq as [-> Heq]. injection Heq as -> ->. now split.
      * now apply final_not_intermediate.
      * now apply final_not_intermediate.
    + apply (starts_outside_run _ is_intermediate);
        auto using intermediate_not_parameter, final_not_parameter.
    + apply (starts_outside_run _ is_intermediate);
        auto using intermediate_not_parameter, final_not_parameter.
Qed.

(** ESC is the first character of an escape sequence and occurs
    nowhere else in it: two sequences in a string do not overlap. *)
Lemma AnsiSequence_ESC m :
  AnsiSequence m -> exists tail, m = String ESC tail /\ ~ occurs ESC tail.
Proof.
  intros [(c & Hc & ->) | (params & inters & final & Hp & Hi & Hf & ->)].
  - eexists; split; [reflexivity|]. simpl. intros [-> | []]. discriminate Hc.
  - eexists; split; [reflexivity|]. simpl. rewrite !occurs_app. simpl.
    intros [H | [H | [H | [H | []]]]].
    + discriminate H.
    + apply (occurs_all_chars _ _ _ Hp) in H. discriminate H.
    + apply (occurs_all_chars _ _ _ Hi) in H. discriminate H.
    + subst final. discriminate Hf.
Qed.

(** [match_at] on the module's pattern: it succeeds exactly at the start
    of an escape sequence, and leaves what follows the sequence. *)
Theorem match_at_ansi_escape s rest :
  Re.match_at ansi_escape s = Some rest <->
  exists m, AnsiSequence m /\ s = m +:+ rest.
Proof.
  split.
  - intros H. apply match_at_Some in H. destruct H as (m & Hm & ->).
    exists m. now rewrite <- ansi_escape_matches.
  - intros (m & Hm & ->).
    destruct (match_at_is_Some ansi_escape m rest) as [rest' Hrest'].
    { now apply ansi_escape_matches. }
    rewrite Hrest'. f_equal.
    apply match_at_Some in Hrest'. destruct Hrest' as (m' & Hm' & Heq).
    apply ansi_escape_matches in Hm'.
    symmetry. now apply (AnsiSequence_unique m m' rest rest').
Qed.

Lemma match_at_ansi_escape_None s :
  Re.match_at ansi_escape s = None <->
  forall m tail, AnsiSequence m -> s <> m +:+ tail.
Proof.
  split.
  - intros Hnone m tail Hm ->.
    assert (H : Re.match_at ansi_escape (m +:+ tail) = Some tail)
      by (apply match_at_ansi_escape; eauto).
    congruence.
  - intros Hno. destruct (Re.match_at ansi_escape s) as [rest|] eqn:H; [|reflexivity].
    apply match_at_ansi_escape in H. destruct H as (m & Hm & ->).
    now destruct (Hno m rest Hm).
Qed.

End Unique.

(** ** [re.sub] with the module's pattern removes the escape sequences *)

Section Sub.

Implicit Types (s rest out : string) (c : ascii).

Lemma sub_from_skip r repl k s :
  Re.sub_from r repl k s = Re.sub_from r repl 0 (Py.drop k s).
Proof.
  revert k. induction s as [|c s IH]; intros [|k]; try reflexivity.
  cbn [Re.sub_from Py.drop]. apply IH.
Qed.

Theorem sub_ansi_escape_Stripped s : Stripped s (Re.sub ansi_escape "" s).
Proof.
  remember (String.length s) as n eqn:Hn.
  revert s Hn. induction n as [n IH] using lt_wf_ind. intros [|c t] Hn.
  - constructor.
  - unfold Re.sub. cbn [Re.sub_from].
    destruct (Re.match_at ansi_escape (String c t)) as [rest|] eqn:Hm.
    + apply match_at_ansi_escape in Hm. destruct Hm as (m & Hm & Heq).
      destruct (AnsiSequence_ESC m Hm) as (tail & -> & _).
      rewrite app_cons in Heq. injection Heq as -> ->.
      rewrite length_app_str, Nat.add_sub, sub_from_skip, drop_app, app_empty_l.
      rewrite <- app_cons. apply Stripped_sequence; [exact Hm|].
      apply (IH (String.length rest)); [|reflexivity].
      subst n. simpl. rewrite length_app_str. lia.
    + apply Stripped_keep.
      * now apply match_at_ansi_escape_None.
      * apply (IH (String.length t)); [subst n; simpl; lia | reflexivity].
Qed.

(** [Stripped] is the general relation at the escape sequences. *)
Lemma Stripped_StrippedOf s out : Stripped s out <-> StrippedOf AnsiSequence s out.
Proof.
  split; induction 1; try (constructor; assumption).
Qed.

(** The relation determines its output. *)
Lemma Stripped_functional s out1 out2 :
  Stripped s out1 -> Stripped s out2 -> out1 = out2.
Proof.
  intros H1. revert out2.
  induction H1 as [| m rest out Hm H1 IH | c rest out Hno H1 IH]; intros out2 H2.
  - inversion H2 as [| m' rest' out' Hm' H2' Heq |]; [reflexivity|].
    destruct (AnsiSequence_ESC m' Hm') as (tail & -> & _). discriminate Heq.
  - inversion H2 as [Heq | m' rest' out' Hm' H2' Heq | c' rest' out' Hno' H2' Heq]; subst.
    + destruct (AnsiSequence_ESC m Hm) as (tail & -> & _). discriminate Heq.
    + destruct (AnsiSequence_unique m' m rest' rest Hm' Hm Heq) as [-> ->].
      now apply IH.
    + destruct (Hno' m rest Hm). now symmetry.
  - inversion H2 as [| m' rest' out' Hm' H2' Heq | c' rest' out' Hno' H2' Heq]; subst.
    + destruct (Hno m' rest' Hm'). now symmetry.
    + f_equal. now apply IH.
Qed.

(** Every occurrence of an escape sequence in the input is removed:
    the output is made of what is left of the text before the
    occurrence and of the text after it. *)
Theorem Stripped_occurrence s out :
  Stripped s out ->
  forall pre m post,
    AnsiSequence m -> s = pre +:+ m +:+ post ->
    exists out1 out2, out = out1 +:+ out2 /\ Stripped pre out1 /\ Stripped post out2.
Proof.
  induction 1 as [| m' rest out Hm' H IH | c rest out Hno H IH];
    intros pre m post Hm Heq.
  - destruct (AnsiSequence_ESC m Hm) as (tail & -> & _).
    destruct pre; discriminate Heq.
  - destruct (app_eq_app_str _ _ _ _ Heq) as [(e & Hpre & Hrest) | (e & -> & ->)].
    + destruct e as [|x e].
      * rewrite app_empty_r in Hpre. subst m'. rewrite app_empty_l in Hrest.
        destruct (IH "" m post Hm (eq_sym Hrest)) as (o1 & o2 & -> & Ho1 & Ho2).
        exists o1, o2. repeat split; [|exact Ho2].
        rewrite <- (app_empty_r pre). now apply Stripped_sequence.
      * destruct (AnsiSequence_ESC m Hm) as (tailm & Hmeq & _).
        destruct (AnsiSequence_ESC m' Hm') as (tail' & Hm'eq & Hnoesc).
        rewrite Hmeq, !app_cons in Hrest. injection Hrest as <- Hrest.
        destruct pre as [|y pre].
        -- rewrite app_empty_l in Hpre, Heq.
           destruct (AnsiSequence_unique m' m rest post Hm' Hm Heq) as [_ ->].
           exists "", out. repeat split; [constructor | exact H].
        -- rewrite Hm'eq, app_cons in Hpre. injection Hpre as _ Htail.
           destruct Hnoesc. rewrite Htail. apply occurs_app. right. now left.
    + destruct (IH e m post Hm eq_refl) as (o1 & o2 & -> & Ho1 & Ho2).
      exists o1, o2. repeat split; [|exact Ho2]. now apply Stripped_sequence.
  - destruct pre as [|c' pre].
    + rewrite app_empty_l in Heq. now destruct (Hno m post Hm).
    + rewrite app_cons in Heq. injection Heq as <- ->.
      destruct (IH pre m post Hm eq_refl) as (o1 & o2 & -> & Ho1 & Ho2).
      exists (String c o1), o2. repeat split; [|exact Ho2].
      apply Stripped_keep; [|exact Ho1].
      intros m'' tail Hm'' Heq. apply (Hno m'' (tail +:+ m +:+ post) Hm'').
      now rewrite <- app_cons, Heq, app_assoc_str.
Qed.

(** Nothing is added: a character of the output is one of the input. *)
Lemma Stripped_occurs s out c : Stripped s out -> occurs c out -> occurs c s.
Proof.
  induction 1 as [| m rest out Hm H IH | c' rest out Hno H IH]; simpl.
  - trivial.
  - intros Hc. apply occurs_app. right. now apply IH.
  - intros [-> | Hc]; [now left | right; now apply IH].
Qed.

End Sub.

(** ** The three replacements escape every newline and carriage return *)

Section Escaping.

Implicit Types (s t : string) (c x : ascii) (f : ascii -> string).

Lemma map_chars_app f s t : map_chars f (s +:+ t) = map_chars f s +:+ map_chars f t.
Proof.
  induction s as [|c s IH]; [reflexivity|].
  rewrite app_cons. cbn [map_chars]. now rewrite IH, app_assoc_str.
Qed.

(** Replacing a one-character string works character by character. *)
Lemma replace_single s x new :
  Py.replace s (String x "") new
  = map_chars (fun c => if decide (c = x) then new else String c "") s.
Proof.
  unfold Py.replace. induction s as [|c s IH]; [reflexivity|].
  cbn [Py.replace_from Py.startswith map_chars String.length Nat.sub].
  destruct (decide (x = c)) as [->|Hne].
  - rewrite decide_True by reflexivity. now rewrite IH.
  - rewrite decide_False by congruence. now rewrite IH.
Qed.

(** Replacing the pair CR LF: the pair at the head goes, any other
    head character stays. *)
Lemma replace_crlf_pair new t :
  Py.replace (String CR (String LF t)) (String CR (String LF "")) new
  = new +:+ Py.replace t (String CR (String LF "")) new.
Proof. reflexivity. Qed.

Lemma replace_crlf_other new c t :
  Py.startswith (String CR (String LF "")) (String c t) = false ->
  Py.replace (String c t) (String CR (String LF "")) new
  = String c (Py.replace t (String CR (String LF "")) new).
Proof. intros H. unfold Py.replace. cbn [Py.replace_from]. now rewrite H. Qed.

Lemma after_replacements_eq s :
  after_replacements s
  = map_chars (fun c => if decide (c = CR) then "\r" else String c "")
      (map_chars (fun c => if decide (c = LF) then "\n" else String c "")
         (Py.replace s (String CR (String LF "")) "\r\n")).
Proof. unfold after_replacements. cbn zeta. now rewrite !replace_single. Qed.

(** The three replacements together escape each newline and each
    carriage return where it stands and change nothing else. *)
Theorem after_replacements_escaped s : after_replacements s = escaped s.
Proof.
  rewrite after_replacements_eq. unfold escaped.
  remember (String.length s) as n eqn:Hn. revert s Hn.
  induction n as [n IH] using lt_wf_ind. intros [|c t] Hn; [reflexivity|].
  destruct (Py.startswith (String CR (String LF "")) (String c t)) eqn:Hpair.
  - cbn [Py.startswith] in Hpair.
    destruct (decide (CR = c)) as [<-|]; [|discriminate].
    destruct t as [|c' t']; [discriminate|].
    destruct (decide (LF = c')) as [<-|]; [|discriminate].
    rewrite replace_crlf_pair, !map_chars_app.
    cbn [map_chars]. rewrite (IH (String.length t')); [reflexivity | | reflexivity].
    subst n. simpl. lia.
  - rewrite replace_crlf_other by exact Hpair.
    cbn [map_chars]. rewrite map_chars_app.
    rewrite (IH (String.length t)); [| subst n; simpl; lia | reflexivity].
    f_equal. unfold escape_char.
    destruct (decide (c = LF)) as [->|HLF]; [reflexivity|].
    destruct (decide (c = CR)) as [->|HCR].
    + cbn [map_chars]. now rewrite decide_True.
    + cbn [map_chars]. now rewrite decide_False.
Qed.

(** No newline and no carriage return is left in an escaped string. *)
Lemma escaped_no_control s : ~ occurs LF (escaped s) /\ ~ occurs CR (escaped s).
Proof.
  unfold escaped. induction s as [|c s [IHLF IHCR]]; [simpl; tauto|].
  cbn [map_chars]. rewrite !occurs_app. unfold escape_char.
  destruct (decide (c = LF)); [|destruct (decide (c = CR))]; simpl;
    split; intros [H | H]; try tauto;
    repeat (destruct H as [H | H]; try discriminate H; try congruence).
Qed.

End Escaping.

(** ** [sanitize_for_logging] *)

Example sanitize_newline :
  sanitize_for_logging (PyStr ("line1" +:+ String LF "line2")) max_length_default
  = "line1\nline2".
Proof. reflexivity. Qed.

Example sanitize_colour :
  sanitize_for_logging (PyStr (String ESC "[31mred" +:+ String ESC "[0m")) max_length_default
  = "red".
Proof. reflexivity. Qed.

Example sanitize_None : sanitize_for_logging PyNone max_length_default = "None".
Proof. reflexivity. Qed.

Example sanitize_crlf :
  sanitize_for_logging (PyStr ("a" +:+ String CR (String LF "b") +:+ String CR "c"))
    max_length_default
  = "a\r\nb\rc".
Proof. reflexivity. Qed.

(** An unfinished control sequence is not an escape sequence and stays,
    also ESC [[] alone. *)
Example sanitize_ESC_bracket :
  sanitize_for_logging (PyStr (String ESC "[")) max_length_default = String ESC "[".
Proof. reflexivity. Qed.

(** An unfinished control sequence is not an escape sequence and stays. *)
Example sanitize_unfinished :
  sanitize_for_logging (PyStr (String ESC "[1;2 ")) max_length_default
  = String ESC "[1;2 ".
Proof. reflexivity. Qed.

(** The escape text of a newline that follows ESC starts with a
    backslash, an Fe byte: ESC and the backslash go as an escape
    sequence. *)
Example sanitize_ESC_newline :
  sanitize_for_logging (PyStr (String ESC (String LF "x"))) max_length_default = "nx".
Proof. reflexivity. Qed.

Section Sanitize.

Implicit Types (value : Any) (max_length : Z) (s : string).

(** The function in stages: for anything but [None], the last step
    applied to the text left by the replacements and the substitution. *)
Lemma sanitize_for_logging_stages value max_length :
  value <> PyNone ->
  sanitize_for_logging value max_length = truncated (sanitized_text value) max_length.
Proof. destruct value; [congruence | reflexivity | reflexivity]. Qed.

Lemma sanitized_text_Stripped value :
  Stripped (escaped (str value)) (sanitized_text value).
Proof.
  unfold sanitized_text. rewrite after_replacements_escaped.
  apply sub_ansi_escape_Stripped.
Qed.

Lemma occurs_take c n s : occurs c (Py.take n s) -> occurs c s.
Proof.
  revert s. induction n as [|n IH]; intros [|c' s]; simpl; try tauto.
  intros [-> | H]; [now left | right; now apply IH].
Qed.

Lemma occurs_truncated c s max_length :
  occurs c (truncated s max_length) -> occurs c s \/ occurs c truncated_suffix.
Proof.
  unfold truncated. destruct (_ >? _)%Z; [|now left].
  rewrite occurs_app. intros [H | H]; [left | now right].
  now apply occurs_take in H.
Qed.

Lemma sanitized_text_no_control value :
  ~ occurs LF (sanitized_text value) /\ ~ occurs CR (sanitized_text value).
Proof.
  destruct (escaped_no_control (str value)) as [HLF HCR].
  pose proof (sanitized_text_Stripped value) as Hs.
  split; intros H; [apply HLF | apply HCR]; now apply (Stripped_occurs _ _ _ Hs).
Qed.

Lemma sanitize_for_logging_no_control value max_length :
  ~ occurs LF (sanitize_for_logging value max_length) /\
  ~ occurs CR (sanitize_for_logging value max_length).
Proof.
  assert (Hcases : value = PyNone \/ value <> PyNone)
    by (destruct value; [now left | now right | now right]).
  destruct Hcases as [->|Hne].
  - simpl. split; intros H;
      repeat (destruct H as [H | H]; try discriminate H); exact H.
  - rewrite sanitize_for_logging_stages by exact Hne.
    destruct (sanitized_text_no_control value) as [HLF HCR].
    split; intros H; apply occurs_truncated in H; destruct H as [H | H];
      try (now apply HLF); try (now apply HCR);
      simpl in H; repeat (destruct H as [H | H]; try discriminate H); exact H.
Qed.

End Sanitize.

(** A negative [max_length] is a slice bound counted from the end: the
    text loses its last characters, it is not cut to a prefix of
    [max_length] characters. *)
Lemma truncation_statement_fails : ~ truncation_statement (PyStr "abc") (-1).
Proof.
  unfold truncation_statement. intros H.
  assert (Hgt : (Py.len (sanitized_text (PyStr "abc")) > -1)%Z) by reflexivity.
  specialize (H Hgt). vm_compute in H. discriminate H.
Qed.

Example sanitize_negative_max_length :
  sanitize_for_logging (PyStr "abc") (-1) = "ab...[truncated]".
Proof. reflexivity. Qed.

(** C6, amended: for every input other than [None] and every
    [max_length >= 0], a text that after escaping and removal of escape
    sequences is longer than [max_length] is cut to its first [max_length]
    characters and followed by the suffix, so the result has
    [max_length + len(suffix)] characters; for [None] the result is the
    text [None] whatever [max_length] is; and 2000 characters [x] with
    [max_length = 1000] give 1000 characters and the suffix. *)
Theorem sanitize_for_logging_truncates (value : Any) (max_length : Z) :
  (value <> PyNone ->
   (0 <= max_length)%Z ->
   (Py.len (sanitized_text value) > max_length)%Z ->
   sanitize_for_logging value max_length
   = first_chars max_length (sanitized_text value) +:+ truncated_suffix
   /\ Py.len (first_chars max_length (sanitized_text value)) = max_length
   /\ Py.len (sanitize_for_logging value max_length)
      = (max_length + Py.len truncated_suffix)%Z)
  /\ sanitize_for_logging PyNone max_length = "None"
  /\ Py.len (sanitize_for_logging (PyStr (Py.mul "x" 2000)) 1000)
     = (1000 + Py.len truncated_suffix)%Z
  /\ ends_with (sanitize_for_logging (PyStr (Py.mul "x" 2000)) 1000) truncated_suffix.
Proof.
  split; [|split; [reflexivity | split]].
  - intros Hne Hpos Hlong.
    rewrite sanitize_for_logging_stages by exact Hne.
    unfold truncated, first_chars, Py.slice_to, Py.adjust_index.
    destruct (Z.gtb_spec (Py.len (sanitized_text value)) max_length) as [_|Hle]; [|lia].
    destruct (Z.ltb_spec max_length 0) as [Hneg|_]; [lia|].
    rewrite Z.min_l by lia.
    assert (Hlen : String.length (Py.take (Z.to_nat max_length) (sanitized_text value))
                   = Z.to_nat max_length).
    { apply length_take. unfold Py.len in Hlong. lia. }
    split; [reflexivity|]. unfold Py.len in *.
    rewrite length_app_str, Hlen. lia.
  - vm_compute. reflexivity.
  - exists (Py.mul "x" 1000). vm_compute. reflexivity.
Qed.

Lemma sanitize_for_logging_truncates_witness :
  sanitize_for_logging (PyStr "0123456789") 4 = "0123...[truncated]" /\
  Py.len (sanitize_for_logging (PyStr "0123456789") 4) = 18%Z.
Proof.
  destruct (proj1 (sanitize_for_logging_truncates (PyStr "0123456789") 4))
    as (Heq & _ & Hlen).
  - discriminate.
  - lia.
  - reflexivity.
  - split; [exact Heq | exact Hlen].
Defined.

(** With every Fe byte in the first form, ESC [[] alone would be a
    sequence to remove; the pattern leaves [[] out of its first
    alternative, and ESC [[] with no final byte after it is kept. *)
Lemma removal_statement_fails :
  ~ removal_statement (PyStr (String ESC "[")) max_length_default.
Proof.
  intros H. destruct (H ltac:(discriminate)) as (out & Hs & Heq).
  change (escaped (str (PyStr (String ESC "[")))) with (String ESC "[") in Hs.
  inversion Hs as [| m rest out' Hm Hrest Hsplit | c rest out' Hno Hrest]; subst.
  - destruct Hm as [(c & Hc & ->) | (params & inters & final & _ & _ & _ & ->)].
    + rewrite !app_cons, app_empty_l in Hsplit. injection Hsplit as -> ->.
      inversion Hrest as [| m' rest' out'' Hm' _ Hsplit' |]; subst.
      * vm_compute in Heq. discriminate Heq.
      * destruct Hm' as [(c & _ & ->) | (params & inters & final & _ & _ & _ & ->)];
          discriminate Hsplit'.
    + rewrite !app_cons in Hsplit. injection Hsplit as Hsplit.
      destruct params, inters; discriminate Hsplit.
  - apply (Hno (String ESC "[") ""); [|reflexivity].
    left. exists "["%char. split; reflexivity.
Qed.

(** C7, amended: for every input other than [None], the result is the
    last step applied to the escaped input with its escape sequences
    removed, an escape sequence being ESC followed by one Fe byte other
    than [[] ([0x40..0x5A] or [0x5C..0x5F]) or by [[], parameter bytes
    [0x30..0x3F], intermediate bytes [0x20..0x2F] and one final byte
    [0x40..0x7E]; every occurrence of an escape sequence in the escaped
    input is removed, what is kept being what is left of the text before
    it and of the text after it; and a text in red comes out as the bare
    text. *)
Theorem sanitize_for_logging_strips_ansi (value : Any) (max_length : Z) :
  (value <> PyNone ->
   exists out,
     Stripped (escaped (str value)) out /\
     (forall pre m post,
        AnsiSequence m -> escaped (str value) = pre +:+ m +:+ post ->
        exists out1 out2,
          out = out1 +:+ out2 /\ Stripped pre out1 /\ Stripped post out2) /\
     sanitize_for_logging value max_length = truncated out max_length)
  /\ sanitize_for_logging (PyStr (String ESC "[31mred" +:+ String ESC "[0m"))
       max_length_default = "red".
Proof.
  split; [|reflexivity].
  intros Hne. exists (sanitized_text value). split; [|split].
  - apply sanitized_text_Stripped.
  - apply Stripped_occurrence, sanitized_text_Stripped.
  - now apply sanitize_for_logging_stages.
Qed.

Lemma sanitize_for_logging_strips_ansi_witness :
  exists out,
    Stripped (escaped (String ESC "[1mbold")) out /\
    (forall pre m post,
       AnsiSequence m -> escaped (String ESC "[1mbold") = pre +:+ m +:+ post ->
       exists out1 out2,
         out = out1 +:+ out2 /\ Stripped pre out1 /\ Stripped post out2) /\
    sanitize_for_logging (PyStr (String ESC "[1mbold")) 1000 = truncated out 1000.
Proof.
  apply (proj1 (sanitize_for_logging_strips_ansi (PyStr (String ESC "[1mbold")) 1000)).
  discriminate.
Defined.

(** C8: for every input other than [None], the result is made from the
    input by the replacement of CR LF pairs, then of newlines, then of
    carriage returns, and those three together put the escape text in
    place of each newline and each carriage return and change nothing
    else; no newline or carriage return is in any result; and
    [line1], newline, [line2] comes out with backslash and [n] in place of
    the newline. *)
Theorem sanitize_for_logging_escapes (value : Any) (max_length : Z) :
  (value <> PyNone ->
   sanitize_for_logging value max_length
   = truncated
       (Re.sub ansi_escape ""
          (Py.replace
             (Py.replace
                (Py.replace (str value) (String CR (String LF "")) "\r\n")
                (String LF "") "\n")
             (String CR "") "\r"))
       max_length)
  /\ Py.replace
       (Py.replace
          (Py.replace (str value) (String CR (String LF "")) "\r\n")
          (String LF "") "\n")
       (String CR "") "\r"
     = escaped (str value)
  /\ ~ occurs LF (sanitize_for_logging value max_length)
  /\ ~ occurs CR (sanitize_for_logging value max_length)
  /\ sanitize_for_logging (PyStr ("line1" +:+ String LF "line2")) max_length_default
     = "line1\nline2".
Proof.
  split; [|split; [|split; [|split]]].
  - intros Hne. now apply sanitize_for_logging_stages.
  - exact (after_replacements_escaped (str value)).
  - apply sanitize_for_logging_no_control.
  - apply sanitize_for_logging_no_control.
  - reflexivity.
Qed.

Lemma sanitize_for_logging_escapes_witness :
  sanitize_for_logging (PyStr (String CR (String LF "x"))) 1000
  = truncated
      (Re.sub ansi_escape ""
         (Py.replace
            (Py.replace
               (Py.replace (str (PyStr (String CR (String LF "x"))))
                  (String CR (String LF "")) "\r\n")
               (String LF "") "\n")
            (String CR "") "\r"))
      1000.
Proof.
  apply (proj1 (sanitize_for_logging_escapes (PyStr (String CR (String LF "x"))) 1000)).
  discriminate.
Defined.

(** C10: [sanitize_log_input] returns what [sanitize_for_logging] returns
    with [max_length = 1000]. *)
Theorem sanitize_log_input_alias (value : Any) :
  sanitize_log_input value = sanitize_for_logging value 1000.
Proof. reflexivity. Qed.

(** ** [is_sensitive_field] *)

Example sensitive_password : is_sensitive_field "PASSWORD" = true.
Proof. vm_compute. reflexivity. Qed.

Example sensitive_header : is_sensitive_field "X-Auth-Token" = true.
Proof. vm_compute. reflexivity. Qed.

Example sensitive_username : is_sensitive_field "username" = false.
Proof. vm_compute. reflexivity. Qed.

Lemma is_sensitive_field_iff (field_name : string) :
  is_sensitive_field field_name = true <->
  exists sensitive,
    sensitive ∈ SENSITIVE_FIELDS /\ Substring sensitive (Py.lower field_name).
Proof.
  unfold is_sensitive_field, Py.any.
  rewrite existsb_exists.
  split; intros (sensitive & Hin & Hsub); exists sensitive; split.
  - exact (proj1 (elem_of_elements _ _) (proj2 (list_elem_of_In _ _) Hin)).
  - exact (proj1 (contains_spec _ _) Hsub).
  - exact (proj1 (list_elem_of_In _ _) (proj2 (elem_of_elements _ _) Hin)).
  - exact (proj2 (contains_spec _ _) Hsub).
Qed.

(** C9: [is_sensitive_field] is true exactly when some name of
    [SENSITIVE_FIELDS] occurs in the lower-cased field name; it is false
    for the empty string and for [username]. *)
Theorem is_sensitive_field_spec (field_name : string) :
  (is_sensitive_field field_name = true <->
   exists sensitive,
     sensitive ∈ SENSITIVE_FIELDS /\ Substring sensitive (Py.lower field_name))
  /\ is_sensitive_field "" = false
  /\ is_sensitive_field "username" = false.
Proof.
  split; [apply is_sensitive_field_iff | split; vm_compute; reflexivity].
Qed.

Lemma is_sensitive_field_spec_witness : is_sensitive_field "Api_Key_Header" = true.
Proof.
  apply (proj1 (is_sensitive_field_spec "Api_Key_Header")).
  exists "api_key". split.
  - unfold SENSITIVE_FIELDS. set_solver.
  - exists "", "_header". reflexivity.
Defined.

(** ** More on [mask_sensitive_value] *)

Section Masking.

Implicit Types (value hidden shown : string) (v : Z).


Lemma mask_split hidden shown :
  hidden <> "" -> shown <> "" ->
  mask_sensitive_value (hidden +:+ shown) (Py.len shown)
  = asterisks (String.length hidden) +:+ shown.
Proof.
  intros Hh Hs.
  assert (Hlh : (0 < String.length hidden)%nat) by (destruct hidden; [congruence | simpl; lia]).
  assert (Hls : (0 < String.length shown)%nat) by (destruct shown; [congruence | simpl; lia]).
  rewrite mask_long.
  - unfold Py.len. rewrite Nat2Z.id, length_app_str, Nat.add_sub.
    now rewrite drop_app.
  - unfold Py.len. rewrite length_app_str. lia.
Qed.

(** X1: for a value longer than a positive [visible_chars], the result
    is one asterisk for each of the other characters followed by the last
    [visible_chars] characters of the value, and has the length of the
    value. *)
Theorem mask_sensitive_value_long (value : string) (v : Z) :
  (0 < v < Py.len value)%Z ->
  exists hidden shown,
    value = hidden +:+ shown /\
    Py.len shown = v /\
    mask_sensitive_value value v = asterisks (String.length hidden) +:+ shown /\
    Py.len (mask_sensitive_value value v) = Py.len value.
Proof.
  intros Hv.
  set (k := (String.length value - Z.to_nat v)%nat).
  assert (Hk : (k <= String.length value)%nat) by (unfold k; lia).
  exists (Py.take k value), (Py.drop k value).
  assert (Hmask : mask_sensitive_value value v = asterisks k +:+ Py.drop k value)
    by now rewrite mask_long.
  unfold Py.len in *. rewrite length_drop, length_take by exact Hk.
  repeat split.
  - symmetry. apply take_drop.
  - unfold k. lia.
  - exact Hmask.
  - rewrite Hmask, length_app_str, length_asterisks, length_drop. lia.
Qed.

Lemma mask_sensitive_value_long_witness :
  exists hidden shown,
    "sk-live-9f8e7d" = hidden +:+ shown /\
    Py.len shown = 2%Z /\
    mask_sensitive_value "sk-live-9f8e7d" 2 = asterisks (String.length hidden) +:+ shown /\
    Py.len (mask_sensitive_value "sk-live-9f8e7d" 2) = Py.len "sk-live-9f8e7d".
Proof.
  apply (mask_sensitive_value_long "sk-live-9f8e7d" 2). vm_compute. split; reflexivity.
Defined.

(** X2: with a positive [visible_chars], the result tells of the hidden
    part only its length: two values of the same length that end in the
    same [visible_chars] characters are masked alike. *)
Theorem mask_sensitive_value_hides_prefix (hidden1 hidden2 shown : string) :
  shown <> "" ->
  String.length hidden1 = String.length hidden2 ->
  mask_sensitive_value (hidden1 +:+ shown) (Py.len shown)
  = mask_sensitive_value (hidden2 +:+ shown) (Py.len shown).
Proof.
  intros Hs Hlen.
  destruct hidden1 as [|c1 h1], hidden2 as [|c2 h2]; try discriminate Hlen.
  - reflexivity.
  - rewrite !mask_split by congruence. now rewrite Hlen.
Qed.

Lemma mask_sensitive_value_hides_prefix_witness :
  mask_sensitive_value "alpha-key-0042" 4 = mask_sensitive_value "omega-pwd-0042" 4.
Proof.
  apply (mask_sensitive_value_hides_prefix "alpha-key-" "omega-pwd-" "0042");
    [discriminate | reflexivity].
Defined.



End Masking.

(** ** More on [sanitize_for_logging] *)

Section SanitizeMore.

Implicit Types (value : Any) (max_length : Z) (s t a b m : string) (c : ascii).

Lemma take_app_exact s t : Py.take (String.length s) (s +:+ t) = s.
Proof. induction s as [|c s IH]; [now destruct t | rewrite app_cons; simpl; now rewrite IH]. Qed.

Lemma escaped_unchanged s : ~ occurs LF s -> ~ occurs CR s -> escaped s = s.
Proof.
  unfold escaped. induction s as [|c s IH]; [reflexivity|].
  cbn [map_chars occurs]. intros HLF HCR.
  assert (Hc : escape_char c = String c "").
  { unfold escape_char. now rewrite !decide_False by (intros ->; tauto). }
  rewrite Hc, app_cons, app_empty_l, IH; tauto.
Qed.

Lemma escaped_keeps_no_ESC s : ~ occurs ESC s -> ~ occurs ESC (escaped s).
Proof.
  unfold escaped. induction s as [|c s IH]; [simpl; tauto|].
  cbn [map_chars occurs]. intros Hno. rewrite occurs_app. intros [H | H].
  - unfold escape_char in H.
    destruct (decide (c = LF)); [|destruct (decide (c = CR))]; simpl in H;
      repeat (destruct H as [H | H]; try discriminate H); tauto.
  - apply IH; tauto.
Qed.

(** Without ESC no escape sequence starts anywhere: nothing is removed. *)
Lemma Stripped_without_ESC s : ~ occurs ESC s -> Stripped s s.
Proof.
  induction s as [|c s IH]; [constructor|]. simpl. intros Hno.
  apply Stripped_keep; [|apply IH; tauto].
  intros m tail Hm Heq. destruct (AnsiSequence_ESC m Hm) as (tl & -> & _).
  rewrite app_cons in Heq. injection Heq as -> _. tauto.
Qed.

Lemma sub_without_ESC s : ~ occurs ESC s -> Re.sub ansi_escape "" s = s.
Proof.
  intros Hno. apply (Stripped_functional s); [apply sub_ansi_escape_Stripped|].
  now apply Stripped_without_ESC.
Qed.

Lemma sanitized_text_without_ESC value :
  ~ occurs ESC (str value) -> sanitized_text value = escaped (str value).
Proof.
  intros Hno. unfold sanitized_text. rewrite after_replacements_escaped.
  now apply sub_without_ESC, escaped_keeps_no_ESC.
Qed.

Lemma sanitized_text_plain s : plain s -> sanitized_text (PyStr s) = s.
Proof.
  intros (HLF & HCR & HESC). rewrite sanitized_text_without_ESC by exact HESC.
  now apply escaped_unchanged.
Qed.

Lemma truncated_short s max_length :
  (Py.len s <= max_length)%Z -> truncated s max_length = s.
Proof.
  intros H. unfold truncated.
  destruct (Z.gtb_spec (Py.len s) max_length); [lia | reflexivity].
Qed.

Lemma truncated_long s max_length :
  (0 <= max_length < Py.len s)%Z ->
  truncated s max_length = Py.take (Z.to_nat max_length) s +:+ truncated_suffix.
Proof.
  intros H. unfold truncated, Py.slice_to, Py.adjust_index.
  destruct (Z.gtb_spec (Py.len s) max_length); [|lia].
  destruct (Z.ltb_spec max_length 0); [lia|].
  now rewrite Z.min_l by lia.
Qed.

Lemma plain_truncated_suffix : plain truncated_suffix.
Proof.
  repeat split; simpl; intros H;
    repeat (destruct H as [H | H]; try discriminate H); exact H.
Qed.

Lemma plain_truncated s max_length : plain s -> plain (truncated s max_length).
Proof.
  intros (HLF & HCR & HESC). destruct plain_truncated_suffix as (SLF & SCR & SESC).
  repeat split; intros H; apply occurs_truncated in H; tauto.
Qed.



(** X5: a text without newline, carriage return and ESC that is not
    longer than [max_length] is returned as it is. *)
Theorem sanitize_for_logging_plain (s : string) (max_length : Z) :
  plain s -> (Py.len s <= max_length)%Z ->
  sanitize_for_logging (PyStr s) max_length = s.
Proof.
  intros Hplain Hlen.
  rewrite sanitize_for_logging_stages by discriminate.
  rewrite sanitized_text_plain by exact Hplain.
  now apply truncated_short.
Qed.

Lemma sanitize_for_logging_plain_witness :
  sanitize_for_logging (PyStr "user 42 logged in") 1000 = "user 42 logged in".
Proof.
  apply (sanitize_for_logging_plain "user 42 logged in" 1000).
  - repeat split; simpl; intros H;
      repeat (destruct H as [H | H]; try discriminate H); exact H.
  - vm_compute. discriminate.
Defined.

(** X6: for an input without ESC and [max_length >= 0], sanitizing the
    result again with the same [max_length] changes nothing: the escape
    texts are not escaped twice and no second suffix is added. *)
Theorem sanitize_for_logging_idempotent_without_ESC (value : Any) (max_length : Z) :
  value <> PyNone -> ~ occurs ESC (str value) -> (0 <= max_length)%Z ->
  sanitize_for_logging (PyStr (sanitize_for_logging value max_length)) max_length
  = sanitize_for_logging value max_length.
Proof.
  intros Hne HESC Hpos.
  rewrite (sanitize_for_logging_stages value) by exact Hne.
  rewrite sanitized_text_without_ESC by exact HESC.
  set (t := escaped (str value)).
  assert (Hplain : plain t).
  { destruct (escaped_no_control (str value)) as [HLF HCR].
    repeat split; [exact HLF | exact HCR | now apply escaped_keeps_no_ESC]. }
  rewrite sanitize_for_logging_stages by discriminate.
  rewrite sanitized_text_plain by now apply plain_truncated.
  destruct (Z.le_gt_cases (Py.len t) max_length) as [Hle|Hgt].
  - rewrite !(truncated_short t) by exact Hle. reflexivity.
  - rewrite (truncated_long t) by lia.
    set (p := Py.take (Z.to_nat max_length) t).
    assert (Hp : String.length p = Z.to_nat max_length).
    { apply length_take. unfold Py.len in Hgt. lia. }
    rewrite truncated_long.
    + now rewrite <- Hp, take_app_exact.
    + unfold Py.len. rewrite length_app_str, Hp. simpl. lia.
Qed.

Lemma sanitize_for_logging_idempotent_without_ESC_witness :
  sanitize_for_logging
    (PyStr (sanitize_for_logging (PyStr ("ab" +:+ String LF "cdefgh")) 5)) 5
  = sanitize_for_logging (PyStr ("ab" +:+ String LF "cdefgh")) 5.
Proof.
  apply (sanitize_for_logging_idempotent_without_ESC
           (PyStr ("ab" +:+ String LF "cdefgh")) 5).
  - discriminate.
  - simpl. intros H. repeat (destruct H as [H | H]; try discriminate H). exact H.
  - lia.
Defined.

End SanitizeMore.

(** ** Escape sequences in and around plain text *)

Section SequencesInText.

Implicit Types (max_length : Z) (s t a b m tail : string) (c : ascii).

(** An escape sequence has a second character, which is not ESC, and no
    newline or carriage return in it. *)
Lemma AnsiSequence_second m :
  AnsiSequence m -> exists c tl, m = String ESC (String c tl) /\ c <> ESC.
Proof.
  intros [(c & Hc & ->) | (params & inters & final & _ & _ & _ & ->)].
  - exists c, "". split; [reflexivity | intros ->; discriminate Hc].
  - eexists _, _. split; [reflexivity | discriminate].
Qed.

Lemma AnsiSequence_no_control m :
  AnsiSequence m -> ~ occurs LF m /\ ~ occurs CR m.
Proof.
  intros [(c & Hc & ->) | (params & inters & final & Hp & Hi & Hf & ->)].
  - split; simpl; intros [H | [H | []]]; try discriminate H; subst c; discriminate Hc.
  - split; simpl; rewrite !occurs_app; simpl;
      intros [H | [H | [H | [H | [H | []]]]]]; try discriminate H;
      try (apply (occurs_all_chars _ _ _ Hp) in H; discriminate H);
      try (apply (occurs_all_chars _ _ _ Hi) in H; discriminate H);
      subst final; discriminate Hf.
Qed.

Lemma sanitized_text_Stripped_of s out :
  ~ occurs LF s -> ~ occurs CR s -> Stripped s out ->
  sanitized_text (PyStr s) = out.
Proof.
  intros HLF HCR Hout.
  apply (Stripped_functional s); [|exact Hout].
  rewrite <- (escaped_unchanged s HLF HCR) at 1.
  apply (sanitized_text_Stripped (PyStr s)).
Qed.

(** X7: the escape sequences are removed in one pass and the result is
    not searched again.  For every escape sequence, ESC followed by
    [tail], the input made of ESC, the sequence and [tail] once more
    comes out as that very sequence (when it fits [max_length]). *)
Theorem sanitize_for_logging_single_pass (tail : string) (max_length : Z) :
  AnsiSequence (String ESC tail) ->
  (Py.len (String ESC tail) <= max_length)%Z ->
  sanitize_for_logging (PyStr (String ESC (String ESC tail +:+ tail))) max_length
  = String ESC tail.
Proof.
  intros Hm Hlen.
  destruct (AnsiSequence_ESC _ Hm) as (tl & Heq & HnoESC). injection Heq as <-.
  destruct (AnsiSequence_no_control _ Hm) as [HLF HCR].
  rewrite sanitize_for_logging_stages by discriminate.
  rewrite (sanitized_text_Stripped_of _ (String ESC tail)).
  - now apply truncated_short.
  - simpl in *. rewrite occurs_app. intros [H | [H | [H | H]]]; try discriminate H; tauto.
  - simpl in *. rewrite occurs_app. intros [H | [H | [H | H]]]; try discriminate H; tauto.
  - apply Stripped_keep.
    + intros m' tl' Hm' Heq.
      destruct (AnsiSequence_second m' Hm') as (c & rest & -> & Hc).
      rewrite !app_cons in Heq. injection Heq as Heq _. congruence.
    + apply Stripped_sequence; [exact Hm|]. now apply Stripped_without_ESC.
Qed.

Lemma sanitize_for_logging_single_pass_witness :
  sanitize_for_logging (PyStr (String ESC (String ESC "[2J" +:+ "[2J"))) 1000
  = String ESC "[2J".
Proof.
  apply (sanitize_for_logging_single_pass "[2J" 1000).
  - right. exists "2", "", "J"%char. repeat split; reflexivity.
  - vm_compute. discriminate.
Defined.

(** X8: an escape sequence between two texts without newline, carriage
    return and ESC is taken out and the two texts are joined (when they
    fit [max_length]). *)
Theorem sanitize_for_logging_removes_sequence (a m b : string) (max_length : Z) :
  plain a -> plain b -> AnsiSequence m ->
  (Py.len (a +:+ b) <= max_length)%Z ->
  sanitize_for_logging (PyStr (a +:+ m +:+ b)) max_length = a +:+ b.
Proof.
  intros (aLF & aCR & aESC) (bLF & bCR & bESC) Hm Hlen.
  destruct (AnsiSequence_no_control m Hm) as [mLF mCR].
  rewrite sanitize_for_logging_stages by discriminate.
  assert (HLF : ~ occurs LF (a +:+ m +:+ b)) by (rewrite !occurs_app; tauto).
  assert (HCR : ~ occurs CR (a +:+ m +:+ b)) by (rewrite !occurs_app; tauto).
  rewrite (sanitized_text_Stripped_of _ (a +:+ b) HLF HCR).
  - now apply truncated_short.
  - pose proof (sub_ansi_escape_Stripped (a +:+ m +:+ b)) as Hs.
    destruct (Stripped_occurrence _ _ Hs a m b Hm eq_refl) as (o1 & o2 & Hout & Ho1 & Ho2).
    assert (Ha : o1 = a)
      by exact (Stripped_functional a o1 a Ho1 (Stripped_without_ESC a aESC)).
    assert (Hb : o2 = b)
      by exact (Stripped_functional b o2 b Ho2 (Stripped_without_ESC b bESC)).
    subst o1 o2. rewrite <- Hout. exact Hs.
Qed.

Lemma sanitize_for_logging_removes_sequence_witness :
  sanitize_for_logging (PyStr ("job " +:+ String ESC "[1;32m" +:+ "done")) 1000
  = "job done".
Proof.
  apply (sanitize_for_logging_removes_sequence "job " (String ESC "[1;32m") "done" 1000).
  - repeat split; simpl; intros H;
      repeat (destruct H as [H | H]; try discriminate H); exact H.
  - repeat split; simpl; intros H;
      repeat (destruct H as [H | H]; try discriminate H); exact H.
  - right. exists "1;32", "", "m"%char. repeat split; reflexivity.
  - vm_compute. discriminate.
Defined.

End SequencesInText.

(** ** More on [is_sensitive_field] *)

Section SensitiveNames.

Implicit Types (field_name pre post s t u : string) (c : ascii).

Lemma lower_char_idempotent c : Py.lower_char (Py.lower_char c) = Py.lower_char c.
Proof. destruct c as [[] [] [] [] [] [] [] []]; reflexivity. Qed.

Lemma lower_idempotent s : Py.lower (Py.lower s) = Py.lower s.
Proof. induction s as [|c s IH]; simpl; [reflexivity | now rewrite lower_char_idempotent, IH]. Qed.

Lemma lower_app s t : Py.lower (s +:+ t) = Py.lower s +:+ Py.lower t.
Proof. induction s as [|c s IH]; [reflexivity | rewrite !app_cons; simpl; now rewrite IH, app_cons]. Qed.

Lemma Substring_trans s t u : Substring s t -> Substring t u -> Substring s u.
Proof.
  intros (p1 & q1 & ->) (p2 & q2 & ->).
  exists (p2 +:+ p1), (q1 +:+ q2). now rewrite !app_assoc_str.
Qed.

Lemma SENSITIVE_FIELDS_core s :
  s ∈ SENSITIVE_FIELDS -> exists core, core ∈ core_sensitive_names /\ Substring core s.
Proof.
  unfold SENSITIVE_FIELDS, core_sensitive_names. intros H.
  set_unfold in H. destruct_or!; subst s.
  - exists "password". split; [set_solver | now exists "", ""].
  - exists "token". split; [set_solver | now exists "", ""].
  - exists "api_key". split; [set_solver | now exists "", ""].
  - exists "apikey". split; [set_solver | now exists "", ""].
  - exists "secret". split; [set_solver | now exists "", ""].
  - exists "credential". split; [set_solver | now exists "", ""].
  - exists "auth". split; [set_solver | now exists "", ""].
  - exists "auth". split; [set_solver | now exists "", "orization"].
  - exists "token". split; [set_solver | now exists "access_", ""].
  - exists "token". split; [set_solver | now exists "refresh_", ""].
  - exists "private_key". split; [set_solver | now exists "", ""].
  - exists "secret". split; [set_solver | now exists "", "_key"].
Qed.

Lemma core_in_SENSITIVE_FIELDS s : s ∈ core_sensitive_names -> s ∈ SENSITIVE_FIELDS.
Proof.
  unfold SENSITIVE_FIELDS, core_sensitive_names. intros H.
  set_unfold in H. set_unfold. tauto.
Qed.

(** X9: for a field name of code points below 256, the field name and
    its lower-cased form are classified alike. *)
Theorem is_sensitive_field_case_insensitive (field_name : string) :
  is_sensitive_field (Py.lower field_name) = is_sensitive_field field_name.
Proof. unfold is_sensitive_field. cbv zeta. now rewrite lower_idempotent. Qed.

(** X10: for strings of code points below 256, a field name that
    contains a sensitive field name is itself sensitive, whatever stands
    before and after it. *)
Theorem is_sensitive_field_superstring (pre field_name post : string) :
  is_sensitive_field field_name = true ->
  is_sensitive_field (pre +:+ field_name +:+ post) = true.
Proof.
  rewrite !is_sensitive_field_iff. intros (sensitive & Hin & Hsub).
  exists sensitive. split; [exact Hin|].
  apply (Substring_trans _ _ _ Hsub).
  rewrite !lower_app. apply Substring_middle.
Qed.

Lemma is_sensitive_field_superstring_witness :
  is_sensitive_field ("Author" +:+ "Name" +:+ "") = true.
Proof.
  apply (is_sensitive_field_superstring "" "Author" "Name").
  vm_compute. reflexivity.
Defined.

(** X11: eight of the twelve names decide the answer: a field name is
    sensitive exactly when its lower-cased form contains one of
    [password], [token], [api_key], [apikey], [secret], [credential],
    [auth], [private_key]; each of the other four contains one of
    these. *)
Theorem is_sensitive_field_core_names (field_name : string) :
  is_sensitive_field field_name = true <->
  exists core, core ∈ core_sensitive_names /\ Substring core (Py.lower field_name).
Proof.
  rewrite is_sensitive_field_iff. split.
  - intros (sensitive & Hin & Hsub).
    destruct (SENSITIVE_FIELDS_core sensitive Hin) as (core & Hcore & Hsub').
    exists core. split; [exact Hcore | exact (Substring_trans _ _ _ Hsub' Hsub)].
  - intros (core & Hcore & Hsub). exists core.
    split; [now apply core_in_SENSITIVE_FIELDS | exact Hsub].
Qed.

Lemma is_sensitive_field_core_names_witness : is_sensitive_field "Refresh_Token" = true.
Proof.
  apply (proj2 (is_sensitive_field_core_names "Refresh_Token")).
  exists "token". split.
  - unfold core_sensitive_names. set_unfold. tauto.
  - exists "refresh_", "". reflexivity.
Defined.

End SensitiveNames.

(** ** More on the two response helpers *)

Section Responses.

Implicit Types (exc : exception) (detail : option string) (s t u : string).

Lemma app_inv_tail_str s t u : s +:+ u = t +:+ u -> s = t.
Proof.
  revert t. induction s as [|c s IH]; intros [|d t] H.
  - reflexivity.
  - apply (f_equal String.length) in H.
    rewrite app_empty_l, app_cons in H. simpl in H. rewrite length_app_str in H. lia.
  - apply (f_equal String.length) in H.
    rewrite app_empty_l, app_cons in H. simpl in H. rewrite length_app_str in H. lia.
  - rewrite !app_cons in H. injection H as -> H. f_equal. now apply IH.
Qed.

Lemma safe_messages_values (kind msg : string) :
  safe_messages !! kind = Some msg -> msg ∈ fixed_messages.
Proof.
  unfold safe_messages, fixed_messages. intros H.
  repeat (apply lookup_insert_Some in H; destruct H as [[_ <-] | [_ H]]; [set_solver|]).
  now rewrite lookup_empty in H.
Qed.

(** X12: without [include_type] the result is always one of seven fixed
    texts, the six of the table and the fallback: nothing of the
    exception goes into it. *)
Theorem get_safe_exception_message_fixed_texts (exc : exception) :
  get_safe_exception_message exc false ∈ fixed_messages.
Proof.
  unfold get_safe_exception_message. cbv zeta.
  destruct (safe_messages !! type_name exc) as [msg|] eqn:Hmsg.
  - exact (safe_messages_values _ _ Hmsg).
  - unfold fixed_messages. set_solver.
Qed.

(** X13: with [include_type], the kind name of an exception that is not
    in the table can be read back from the result: two such exceptions
    with the same result have the same kind name. *)
Theorem get_safe_exception_message_shows_kind (exc1 exc2 : exception) :
  safe_messages !! type_name exc1 = None ->
  safe_messages !! type_name exc2 = None ->
  get_safe_exception_message exc1 true = get_safe_exception_message exc2 true ->
  type_name exc1 = type_name exc2.
Proof.
  unfold get_safe_exception_message. cbv zeta. intros -> -> H.
  apply app_inv_head in H. now apply app_inv_tail_str in H.
Qed.

Lemma get_safe_exception_message_shows_kind_witness :
  type_name (Exception "KeyError" "'db_password'") = type_name (Exception "KeyError" "'token'").
Proof.
  apply (get_safe_exception_message_shows_kind
           (Exception "KeyError" "'db_password'") (Exception "KeyError" "'token'"));
    reflexivity.
Defined.

(** X14: the response always has exactly the one entry [detail], and its
    text is never empty. *)
Theorem create_generic_error_response_never_empty (detail : option string) :
  exists text,
    create_generic_error_response detail = {[ "detail" := text ]} /\
    text <> "" /\
    size (create_generic_error_response detail) = 1%nat.
Proof.
  unfold create_generic_error_response.
  eexists. split; [reflexivity|]. split; [|apply map_size_singleton].
  destruct detail as [[|c s]|]; discriminate.
Qed.

End Responses.

(** ** Edges of [sanitize_for_logging] *)

Section SanitizeEdges.

Implicit Types (value : Any) (max_length : Z) (s t a b m : string) (c : ascii).

Lemma sanitized_text_of_Stripped value out :
  Stripped (escaped (str value)) out -> sanitized_text value = out.
Proof.
  intros Hout.
  exact (Stripped_functional _ _ _ (sanitized_text_Stripped value) Hout).
Qed.

Lemma Stripped_between a m b :
  ~ occurs ESC a -> ~ occurs ESC b -> AnsiSequence m ->
  Stripped (a +:+ m +:+ b) (a +:+ b).
Proof.
  intros Ha Hb Hm. induction a as [|c a IH].
  - rewrite !app_empty_l. apply Stripped_sequence; [exact Hm|].
    now apply Stripped_without_ESC.
  - simpl in Ha. rewrite !app_cons. apply Stripped_keep; [|apply IH; tauto].
    intros m' tail Hm' Heq. destruct (AnsiSequence_ESC m' Hm') as (tl & -> & _).
    rewrite app_cons in Heq. injection Heq as -> _. tauto.
Qed.

(** X15: a negative [max_length] is not refused.  Every input other than
    [None] is then longer than [max_length]: the text loses its last
    [-max_length] characters (all of them if it has no more) and the
    suffix is always added. *)
Theorem sanitize_for_logging_negative_max_length (value : Any) (max_length : Z) :
  value <> PyNone -> (max_length < 0)%Z ->
  sanitize_for_logging value max_length
  = Py.take (Z.to_nat (Py.len (sanitized_text value) + max_length)) (sanitized_text value)
    +:+ truncated_suffix.
Proof.
  intros Hne Hneg. rewrite sanitize_for_logging_stages by exact Hne.
  unfold truncated, Py.slice_to, Py.adjust_index.
  destruct (Z.gtb_spec (Py.len (sanitized_text value)) max_length) as [_|Hle];
    [|unfold Py.len in Hle; lia].
  destruct (Z.ltb_spec max_length 0) as [_|Hge]; [|lia].
  do 2 f_equal. lia.
Qed.

Lemma sanitize_for_logging_negative_max_length_witness :
  sanitize_for_logging (PyStr "") (-3) = "...[truncated]" /\
  sanitize_for_logging (PyStr "request-id") (-3) = "request...[truncated]".
Proof.
  split.
  - exact (sanitize_for_logging_negative_max_length (PyStr "") (-3)
             ltac:(discriminate) ltac:(lia)).
  - exact (sanitize_for_logging_negative_max_length (PyStr "request-id") (-3)
             ltac:(discriminate) ltac:(lia)).
Defined.

(** X16: the escape text of a newline or carriage return starts with a
    backslash, which after ESC makes an escape sequence.  Between two
    texts without newline, carriage return and ESC, ESC followed by a
    newline leaves the letter [n], and ESC followed by a carriage return
    leaves the letter [r]: the control character is neither kept nor
    shown as its escape text. *)
Theorem sanitize_for_logging_ESC_before_control (a b : string) (max_length : Z) :
  plain a -> plain b ->
  (Py.len a + 1 + Py.len b <= max_length)%Z ->
  sanitize_for_logging (PyStr (a +:+ String ESC (String LF b))) max_length
  = a +:+ String "n" b
  /\
  sanitize_for_logging (PyStr (a +:+ String ESC (String CR b))) max_length
  = a +:+ String "r" b.
Proof.
  intros (aLF & aCR & aESC) (bLF & bCR & bESC) Hlen.
  assert (Hseq : AnsiSequence (String ESC "\")).
  { left. exists "\"%char. split; reflexivity. }
  assert (Hfit : forall x, (Py.len (a +:+ String x b) <= max_length)%Z).
  { intros x. unfold Py.len in *. rewrite length_app_str. simpl. lia. }
  split.
  - rewrite sanitize_for_logging_stages by discriminate.
    rewrite (sanitized_text_of_Stripped _ (a +:+ String "n" b)).
    + apply truncated_short, Hfit.
    + cbn [str]. unfold escaped. rewrite map_chars_app. cbn [map_chars].
      fold (escaped a). fold (escaped b).
      rewrite (escaped_unchanged a aLF aCR), (escaped_unchanged b bLF bCR).
      apply (Stripped_between a (String ESC "\") (String "n" b)); try assumption.
      simpl. intros [H | H]; [discriminate H | tauto].
  - rewrite sanitize_for_logging_stages by discriminate.
    rewrite (sanitized_text_of_Stripped _ (a +:+ String "r" b)).
    + apply truncated_short, Hfit.
    + cbn [str]. unfold escaped. rewrite map_chars_app. cbn [map_chars].
      fold (escaped a). fold (escaped b).
      rewrite (escaped_unchanged a aLF aCR), (escaped_unchanged b bLF bCR).
      apply (Stripped_between a (String ESC "\") (String "r" b)); try assumption.
      simpl. intros [H | H]; [discriminate H | tauto].
Qed.

Lemma sanitize_for_logging_ESC_before_control_witness :
  sanitize_for_logging (PyStr ("id=7" +:+ String ESC (String LF "ok"))) 1000 = "id=7nok"
  /\
  sanitize_for_logging (PyStr ("id=7" +:+ String ESC (String CR "ok"))) 1000 = "id=7rok".
Proof.
  apply (sanitize_for_logging_ESC_before_control "id=7" "ok" 1000).
  - repeat split; simpl; intros H;
      repeat (destruct H as [H | H]; try discriminate H); exact H.
  - repeat split; simpl; intros H;
      repeat (destruct H as [H | H]; try discriminate H); exact H.
  - vm_compute. discriminate.
Defined.

End SanitizeEdges.
